(** * FP_daily_project_name_comparison.py: a shallow embedding

    The job fetches the distinct project names from the database, compares
    them with yesterday's CSV snapshot, archives today's names as a dated
    CSV file and mails a summary.

    Data model used throughout:
    - a name is a [string] (8-bit characters; [str.strip] and [str.lower]
      are modelled on the ASCII range, other bytes are left untouched);
    - a cell of the [project_names] column is an [option string], [None]
      standing for pandas' missing value (SQL NULL / NaN);
    - a one-column DataFrame is the list of its cells, in row order;
    - a Python [set] of normalised names is a [gset cell];
    - the file system is a [gmap] from paths to CSV files. *)

From Stdlib Require Import String Ascii List Bool Arith DecimalString.
From Stdlib Require Import Sorting.Sorted.
From stdpp Require Import base gmap strings list.

Local Open Scope string_scope.

(** ** Strings: [str.strip] and [str.lower] *)

Module Str.

(** [str.isspace] on the ASCII range: TAB, LF, VT, FF, CR, FS, GS, RS, US
    and the blank. *)
Definition is_space (c : ascii) : bool :=
  let n := nat_of_ascii c in
  (((9 <=? n) && (n <=? 13)) || ((28 <=? n) && (n <=? 32)))%nat.

Fixpoint lstrip (s : string) : string :=
  match s with
  | EmptyString => EmptyString
  | String c r => if is_space c then lstrip r else s
  end.

Fixpoint rstrip (s : string) : string :=
  match s with
  | EmptyString => EmptyString
  | String c r =>
      match rstrip r with
      | EmptyString => if is_space c then EmptyString else String c EmptyString
      | r' => String c r'
      end
  end.

(** [s.strip()] *)
Definition strip (s : string) : string := rstrip (lstrip s).

Definition lower_char (c : ascii) : ascii :=
  let n := nat_of_ascii c in
  if ((65 <=? n) && (n <=? 90))%nat then ascii_of_nat (n + 32) else c.

(** [s.lower()] *)
Fixpoint lower (s : string) : string :=
  match s with
  | EmptyString => EmptyString
  | String c r => String (lower_char c) (lower r)
  end.

(** Python's [<] on [str]: lexicographic on code points. *)
Fixpoint ltb (s t : string) : bool :=
  match s, t with
  | _, EmptyString => false
  | EmptyString, String _ _ => true
  | String a s', String b t' =>
      let x := nat_of_ascii a in
      let y := nat_of_ascii b in
      if (x <? y)%nat then true else if (y <? x)%nat then false else ltb s' t'
  end.

Definition leb (s t : string) : bool := negb (ltb t s).

(** [str(n)] for a non-negative integer. *)
Definition of_nat (n : nat) : string :=
  NilEmpty.string_of_uint (Nat.to_uint n).

(** [sep.join(l)] *)
Fixpoint join (sep : string) (l : list string) : string :=
  match l with
  | [] => ""
  | [x] => x
  | x :: r => x ++ sep ++ join sep r
  end.

(** [s.split(",")]: never returns an empty list. *)
Fixpoint split_comma (s : string) : list string :=
  match s with
  | EmptyString => [EmptyString]
  | String c r =>
      if Ascii.eqb c "," then EmptyString :: split_comma r
      else match split_comma r with
           | [] => [String c EmptyString]
           | w :: ws => String c w :: ws
           end
  end.

End Str.

(** ** DataFrames with the single column [project_names] *)

(** A cell: a string, or pandas' missing value. *)
Abbreviation cell := (option string) (only parsing).

Abbreviation frame := (list (option string)) (only parsing).

Inductive status : Type := Added | Removed.

(** One row of [diff_df]: columns [project_names] and [status]. *)
Abbreviation diff_row := (option string * status)%type (only parsing).

(** [series.str.strip().str.lower()] on one cell: a missing value stays
    missing. *)
Definition normalize (c : cell) : cell :=
  (fun s => Str.lower (Str.strip s)) <$> c.

(** [set(df["project_names"].str.strip().str.lower())] *)
Definition normalized (df : frame) : gset cell :=
  list_to_set (normalize <$> df).

(** [df[df["project_names"].str.strip().str.lower().isin(keys)]] *)
Definition isin_rows (keys : gset cell) (df : frame) : frame :=
  filter (fun c => normalize c ∈ keys) df.

(** [df.assign(status=st)] *)
Definition assign_status (st : status) (df : frame) : list diff_row :=
  (fun c => (c, st)) <$> df.

Definition compare_csvs (new_df old_df : frame) : list diff_row :=
  let old_projects_normalized := normalized old_df in
  let new_projects_normalized := normalized new_df in
  let added_projects := new_projects_normalized ∖ old_projects_normalized in
  let removed_projects := old_projects_normalized ∖ new_projects_normalized in
  let added_df := isin_rows added_projects new_df in
  let removed_df := isin_rows removed_projects old_df in
  assign_status Added added_df ++ assign_status Removed removed_df.

(** The rows of a diff carrying a given status, and their identity keys. *)
Definition status_eqb (a b : status) : bool :=
  match a, b with
  | Added, Added | Removed, Removed => true
  | _, _ => false
  end.

Definition rows_with (st : status) (d : list diff_row) : frame :=
  fst <$> List.filter (fun r => status_eqb (snd r) st) d.

Definition added_keys (d : list diff_row) : gset cell :=
  normalized (rows_with Added d).

Definition removed_keys (d : list diff_row) : gset cell :=
  normalized (rows_with Removed d).

(** ** The CSV snapshot files

    A snapshot has one column.  A file is its header line followed by one
    field per line; for every field the model keeps its text and whether it
    stands between double quotes (the quoting itself, i.e. doubling of
    embedded quotes, is the [csv] module's business and is not modelled). *)

Record csv_field : Type := Field { quoted : bool; text : string }.

Record csv_file : Type := CsvFile { header : string; fields : list csv_field }.

Definition chars (s : string) : list ascii := list_ascii_of_string s.

Definition nl : string := String (ascii_of_nat 10) EmptyString.

(** [csv.writer] with [QUOTE_MINIMAL]: a field is quoted when it holds the
    delimiter, the quote character or a line break, and when it is the empty
    only field of its row. *)
Definition special_char (c : ascii) : bool :=
  let n := nat_of_ascii c in
  ((n =? 44) || (n =? 34) || (n =? 13) || (n =? 10))%nat.

Definition needs_quotes (s : string) : bool :=
  String.eqb s "" || existsb special_char (chars s).

(** A missing value is written as the empty string ([na_rep='']). *)
Definition write_field (c : cell) : csv_field :=
  let s := match c with Some s => s | None => "" end in
  Field (needs_quotes s) s.

(** [df.to_csv(path, index=False)]: the content written. *)
Definition to_csv_content (df : frame) : csv_file :=
  CsvFile "project_names" (write_field <$> df).

(** The strings [read_csv] takes for a missing value by default. *)
Definition na_values : list string :=
  [""; "#N/A"; "#N/A N/A"; "#NA"; "-1.#IND"; "-1.#QNAN"; "-NaN"; "-nan";
   "1.#IND"; "1.#QNAN"; "<NA>"; "N/A"; "NA"; "NULL"; "NaN"; "None"; "n/a";
   "nan"; "null"].

Definition is_na (s : string) : bool := bool_decide (s ∈ na_values).

(** [skip_blank_lines=True]: an unquoted line of blanks and tabs only is
    skipped by the tokenizer. *)
Definition blank_char (c : ascii) : bool :=
  let n := nat_of_ascii c in ((n =? 32) || (n =? 9))%nat.

Definition blank_line (f : csv_field) : bool :=
  negb (quoted f) && forallb blank_char (chars (text f)).

Definition parse_field (f : csv_field) : cell :=
  if is_na (text f) then None else Some (text f).

(** [df.dropna(subset=["project_names"])] *)
Definition dropna (df : frame) : frame :=
  List.filter (fun c => match c with Some _ => true | None => false end) df.

(** [sort_values(by="project_names")]: ascending, missing values last. *)
Definition cell_leb (a b : cell) : bool :=
  match a, b with
  | _, None => true
  | None, Some _ => false
  | Some s, Some t => Str.leb s t
  end.

Fixpoint insert_sorted (c : cell) (l : frame) : frame :=
  match l with
  | [] => [c]
  | d :: r => if cell_leb c d then c :: l else d :: insert_sorted c r
  end.

Definition sort_values (df : frame) : frame :=
  foldr insert_sorted [] df.

(** ** The world the script runs in *)

Inductive exn : Type :=
| OperationalError       (* psycopg2: connection or query failure *)
| ValueError             (* read_csv: usecols do not match the header *)
| OSError                (* mkdir / to_csv: directory or file cannot be written *)
| SMTPException          (* connect, STARTTLS or login failure *)
| SMTPRecipientsRefused. (* every recipient refused, also when there is none *)

Record message : Type := Message {
  msg_from : string;
  msg_to : string;
  msg_subject : string;
  msg_body : string
}.

(** One call of [server.sendmail(from_addr, to_addrs, msg)]. *)
Record sendmail_call : Type := Sendmail {
  from_addr : string;
  to_addrs : list string;
  payload : message
}.

(** How [to_csv] goes: it writes the whole file; or it cannot open the file,
    which stays as it was; or it opens the file, which empties it, and fails
    while writing, leaving behind what had reached the disk. *)
Inductive write_fault : Type :=
| NoFault
| OpenFails
| WriteFails (left_behind : csv_file).

Record world : Type := World {
  fs : gmap string csv_file;      (* the files under any path *)
  dir_ok : bool;                  (* CSV_DIR exists or can be created *)
  csv_write : write_fault;        (* how writing a file goes *)
  db : option frame;              (* rows the query returns; None: it raises *)
  smtp_up : bool;                 (* connect, STARTTLS and login succeed *)
  sendmail_calls : list sendmail_call;  (* every sendmail issued, oldest first *)
  delivered : list sendmail_call        (* those the server accepted *)
}.

(** Module-level bindings resolved at start-up. *)
Record config : Type := Config {
  today : string;
  yesterday : string;
  EMAIL_SENDER : string;
  EMAIL_RECEIVER_RAW : string
}.

Inductive result (A : Type) : Type :=
| Ok (a : A)
| Raise (e : exn).
Arguments Ok {A} a.
Arguments Raise {A} e.

(** Statements of the script: they read and change the world and may raise. *)
Definition io (A : Type) : Type := world -> result A * world.

Definition io_ret {A} (a : A) : io A := fun w => (Ok a, w).

Definition io_bind {A B} (m : io A) (k : A -> io B) : io B :=
  fun w => match m w with
           | (Ok a, w') => k a w'
           | (Raise e, w') => (Raise e, w')
           end.

Definition raise {A} (e : exn) : io A := fun w => (Raise e, w).

(** [try: body except Exception as e: handler] *)
Definition try_except {A} (body : io A) (handler : exn -> io A) : io A :=
  fun w => match body w with
           | (Ok a, w') => (Ok a, w')
           | (Raise e, w') => handler e w'
           end.

Notation "'let*' x := m 'in' k" := (io_bind m (fun x => k))
  (at level 10, x name, m at level 100, k at level 200).
Notation "'do' m 'then' k" := (io_bind m (fun _ => k))
  (at level 10, m at level 100, k at level 200).

(** *** Primitive operations on the world *)

(** The save step can go through: the directory is there or can be made,
    and the file can be written in full. *)
Definition disk_ok (w : world) : bool :=
  dir_ok w && match csv_write w with NoFault => true | _ => false end.

Definition set_fs (f : gmap string csv_file) (w : world) : world :=
  World f (dir_ok w) (csv_write w) (db w) (smtp_up w) (sendmail_calls w)
        (delivered w).

Definition log_sendmail (c : sendmail_call) (w : world) : world :=
  World (fs w) (dir_ok w) (csv_write w) (db w) (smtp_up w)
        (sendmail_calls w ++ [c]) (delivered w).

Definition deliver (c : sendmail_call) (w : world) : world :=
  World (fs w) (dir_ok w) (csv_write w) (db w) (smtp_up w) (sendmail_calls w)
        (delivered w ++ [c]).

(** [os.path.exists(path)] *)
Definition path_exists (path : string) : io bool :=
  fun w => (Ok (bool_decide (is_Some (fs w !! path))), w).

(** [pd.read_csv(path, usecols=["project_names"], dtype=str)]. A file that
    exists is taken to be readable and well encoded: a locked file, a
    directory under that name or ill-encoded bytes are outside the model. *)
Definition read_csv (path : string) : io frame :=
  fun w =>
    match fs w !! path with
    | None => (Raise OSError, w)
    | Some f =>
        if String.eqb (header f) "project_names"
        then (Ok (parse_field <$>
                  List.filter (fun l => negb (blank_line l)) (fields f)), w)
        else (Raise ValueError, w)
    end.

(** [CSV_DIR.mkdir(parents=True, exist_ok=True)] *)
Definition mkdir : io unit :=
  fun w => if dir_ok w then (Ok tt, w) else (Raise OSError, w).

(** [df.to_csv(path, index=False)] *)
Definition to_csv (path : string) (df : frame) : io unit :=
  fun w =>
    match csv_write w with
    | NoFault => (Ok tt, set_fs (<[path := to_csv_content df]> (fs w)) w)
    | OpenFails => (Raise OSError, w)
    | WriteFails left_behind =>
        (Raise OSError, set_fs (<[path := left_behind]> (fs w)) w)
    end.

(** connect, [cur.execute(query)], [cur.fetchall()], close *)
Definition db_query : io frame :=
  fun w => match db w with
           | Some rows => (Ok rows, w)
           | None => (Raise OperationalError, w)
           end.

(** [smtplib.SMTP(...)], [starttls()], [login(...)] *)
Definition smtp_login : io unit :=
  fun w => if smtp_up w then (Ok tt, w) else (Raise SMTPException, w).

(** [server.sendmail(from, to, msg)]: smtplib issues MAIL FROM, one RCPT per
    address, and raises [SMTPRecipientsRefused] when as many addresses were
    refused as were given, which is also the case of no address at all.
    Once logged in, the server is taken to accept the sender, the addresses
    and the data: its refusals are outside the model. *)
Definition sendmail (c : sendmail_call) : io unit :=
  fun w =>
    let w' := log_sendmail c w in
    match to_addrs c with
    | [] => (Raise SMTPRecipientsRefused, w')
    | _ :: _ => (Ok tt, deliver c w')
    end.

(** ** The script *)

Definition CSV_DIR : string :=
  "L:\Sample Inventory Department\FreezerPro Projects".

(** [CSV_DIR / f"project_names_{date}.csv"] *)
Definition snapshot_path (date : string) : string :=
  CSV_DIR ++ "\project_names_" ++ date ++ ".csv".

Definition yesterday_file (cfg : config) : string :=
  snapshot_path (yesterday cfg).

Definition today_file (cfg : config) : string :=
  snapshot_path (today cfg).

(** [[email.strip() for email in RAW.split(",") if email.strip()]] *)
Definition EMAIL_RECEIVER (cfg : config) : list string :=
  Str.strip <$>
    List.filter (fun email => negb (String.eqb (Str.strip email) ""))
                (Str.split_comma (EMAIL_RECEIVER_RAW cfg)).

Definition fetch_project_names : io (option frame) :=
  try_except
    (let* data := db_query in io_ret (Some data))
    (fun _ => io_ret None).

Definition load_csv (filepath : string) : io frame :=
  let* found := path_exists filepath in
  if found
  then let* df := read_csv filepath in io_ret (dropna df)
  else io_ret [].

Section Script.

(** [diff_df.to_string(index=False)]: pandas' table renderer, left
    abstract. *)
Variable to_string : list diff_row -> string.

Definition email_body (total_projects : nat) (diff_df : list diff_row)
  : string :=
  let body :=
    "Total FP projects today: " ++ Str.of_nat total_projects ++ nl ++ nl in
  match diff_df with
  | [] => body ++ "No changes in FP project names."
  | _ :: _ => (body ++ "Changes in FP project names:" ++ nl)
                ++ to_string diff_df
  end.

Definition send_email (cfg : config) (total_projects : nat)
    (diff_df : list diff_row) : io unit :=
  let subject := "Daily FP Project Name Report - " ++ today cfg in
  let body := email_body total_projects diff_df in
  let msg := Message (EMAIL_SENDER cfg)
                     (Str.join ", " (EMAIL_RECEIVER cfg)) subject body in
  try_except
    (do smtp_login then
     sendmail (Sendmail (EMAIL_SENDER cfg) (EMAIL_RECEIVER cfg) msg))
    (fun _ => io_ret tt).

(** The [sendmail] call that [send_email] issues. *)
Definition notification (cfg : config) (total_projects : nat)
    (diff_df : list diff_row) : sendmail_call :=
  Sendmail (EMAIL_SENDER cfg) (EMAIL_RECEIVER cfg)
    (Message (EMAIL_SENDER cfg) (Str.join ", " (EMAIL_RECEIVER cfg))
       ("Daily FP Project Name Report - " ++ today cfg)
       (email_body total_projects diff_df)).

(** Lines 173-176: archive today's names. *)
Definition save_snapshot (cfg : config) (new_data : frame) : io frame :=
  do mkdir then
  let sorted := sort_values new_data in
  do to_csv (today_file cfg) sorted then
  io_ret sorted.

(** Lines 167-180: the workflow. *)
Definition main (cfg : config) : io unit :=
  let* new_data := fetch_project_names in
  let* old_data := load_csv (yesterday_file cfg) in
  match new_data with
  | Some new_data =>
      let diff_df := compare_csvs new_data old_data in
      let* new_data := save_snapshot cfg new_data in
      let total_projects := length new_data in
      send_email cfg total_projects diff_df
  | None => io_ret tt
  end.

End Script.

(** ** Notions used in the statements *)

(** The frame the rows of a given status are taken from. *)
Definition source_frame (st : status) (new_df old_df : frame) : frame :=
  match st with Added => new_df | Removed => old_df end.

Definition keys_with (st : status) (d : list diff_row) : gset cell :=
  normalized (rows_with st d).

Definition with_key (k : cell) (df : frame) : frame :=
  filter (fun c => normalize c = k) df.

(** A name survives the archive when [read_csv] does not take it for a
    missing value and its line is not blank. *)
Definition storable (c : cell) : bool :=
  match c with
  | Some s => negb (is_na s) && negb (forallb blank_char (chars s))
  | None => false
  end.

(** A line of a file that [load_csv] keeps: not a blank line, and its text
    not one of the markers of a missing value. *)
Definition kept_line (l : csv_field) : bool :=
  negb (blank_line l) && negb (is_na (text l)).

(** The files after the save step of a run in world [w], from the files
    [m] before it. *)
Definition after_save (cfg : config) (df : frame) (w : world)
    (m : gmap string csv_file) : gmap string csv_file :=
  if dir_ok w
  then match csv_write w with
       | NoFault => <[today_file cfg := to_csv_content (sort_values df)]> m
       | OpenFails => m
       | WriteFails left_behind => <[today_file cfg := left_behind]> m
       end
  else m.

(** An entry that is missing, or empty once trimmed. *)
Definition blank_entry (c : cell) : bool :=
  match c with
  | Some s => String.eqb (Str.strip s) ""
  | None => true
  end.

(** The other status. *)
Definition opposite (st : status) : status :=
  match st with Added => Removed | Removed => Added end.

(** A string without a comma. *)
Definition comma_free (s : string) : bool :=
  forallb (fun c => negb (Ascii.eqb c ",")) (chars s).

(** An address as the recipient list holds them: not empty, no white space
    around it, no comma in it. *)
Definition clean_address (s : string) : bool :=
  negb (String.eqb s "") && String.eqb (Str.strip s) s && comma_free s.

(** The configuration with another value of EMAIL_RECEIVER in the
    environment. *)
Definition with_receiver_raw (raw : string) (cfg : config) : config :=
  Config (today cfg) (yesterday cfg) (EMAIL_SENDER cfg) raw.

(** [a <= b] in the order [sort_values] sorts by. *)
Definition cell_le (a b : cell) : Prop := cell_leb a b = true.

(** ** Sample runs *)

(** Sample configuration and worlds used to run the model. *)
Definition sample_config : config :=
  Config "2025-03-05" "2025-03-04" "reports@example.org"
         "lab@example.org, admin@example.org".

(** A first run: nothing archived yet, every service up. *)
Definition first_run (rows : frame) : world :=
  World ∅ true NoFault (Some rows) true [] [].

(** A hand-edited archive for the day before. *)
Definition edited_archive : world :=
  World {[ yesterday_file sample_config :=
             CsvFile "project_names"
               [Field false "Alpha"; Field true ""; Field false "NA";
                Field false "  "; Field true " "] ]}
        true NoFault (Some [Some "Alpha"]) true [] [].

(** A plain rendering of the diff table, used to run the workflow on
    examples where pandas' [to_string] is needed. *)
Definition show_status (st : status) : string :=
  match st with Added => "Added" | Removed => "Removed" end.

Definition plain_table (d : list diff_row) : string :=
  Str.join nl
    ((fun r => match fst r with Some s => s | None => "NaN" end
               ++ " " ++ show_status (snd r)) <$> d).

(** The database cannot be reached; yesterday's archive is on disk. *)
Definition database_down : world :=
  World {[ yesterday_file sample_config :=
             to_csv_content [Some "Alpha"; Some "Beta"] ]}
        true NoFault None true [] [].

(** Yesterday's archive is on disk and everything works. *)
Definition second_run (rows : frame) : world :=
  World {[ yesterday_file sample_config :=
             to_csv_content [Some "Alpha"; Some "Beta"] ]}
        true NoFault (Some rows) true [] [].

(** The archive directory is not there and cannot be made. *)
Definition disk_failure (rows : frame) : world :=
  World ∅ false NoFault (Some rows) true [] [].

(** The disk fills up while today's file is being written: the file is left
    empty. *)
Definition disk_full (rows : frame) : world :=
  World ∅ true (WriteFails (CsvFile "" [])) (Some rows) true [] [].

(** EMAIL_RECEIVER is unset in the environment. *)
Definition unaddressed_config : config :=
  Config "2025-03-05" "2025-03-04" "reports@example.org" "".

(** Yesterday's file was produced by another tool, with another header. *)
Definition foreign_archive : world :=
  World {[ yesterday_file sample_config :=
             CsvFile "name" [Field false "Alpha"] ]}
        true NoFault (Some [Some "Alpha"]) true [] [].

(** The mail server is out of reach. *)
Definition mail_down (rows : frame) : world :=
  World ∅ true NoFault (Some rows) false [] [].

(** The configuration of the day after [sample_config]. *)
Definition next_day_config : config :=
  Config "2025-03-06" "2025-03-05" "reports@example.org" "lab@example.org".

(** * Properties *)

(** ** The diff *)

Section Diff.

Implicit Types (new_df old_df df : frame) (keys : gset cell) (k c : cell).

Lemma elem_of_normalized k df :
  k ∈ normalized df <-> exists c, c ∈ df /\ normalize c = k.
Proof.
  unfold normalized. rewrite elem_of_list_to_set, list_elem_of_fmap.
  split; intros (c & H1 & H2); exists c; split; auto.
Qed.

Lemma rows_with_assign st st' df :
  rows_with st (assign_status st' df) =
  if status_eqb st' st then df else [].
Proof.
  unfold rows_with, assign_status.
  destruct (status_eqb st' st) eqn:E.
  - induction df as [|c df IH]; [done|].
    cbn. rewrite E. cbn. f_equal. exact IH.
  - induction df as [|c df IH]; [done|].
    cbn. rewrite E. exact IH.
Qed.

Lemma rows_with_app st (d1 d2 : list diff_row) :
  rows_with st (d1 ++ d2) = (rows_with st d1 ++ rows_with st d2)%list.
Proof. unfold rows_with. by rewrite List.filter_app, fmap_app. Qed.

Lemma rows_with_Added new_df old_df :
  rows_with Added (compare_csvs new_df old_df) =
  isin_rows (normalized new_df ∖ normalized old_df) new_df.
Proof.
  unfold compare_csvs. rewrite rows_with_app, !rows_with_assign. simpl.
  by rewrite app_nil_r.
Qed.

Lemma rows_with_Removed new_df old_df :
  rows_with Removed (compare_csvs new_df old_df) =
  isin_rows (normalized old_df ∖ normalized new_df) old_df.
Proof.
  unfold compare_csvs. rewrite rows_with_app, !rows_with_assign. by simpl.
Qed.

Lemma normalized_isin_rows keys df :
  normalized (isin_rows keys df) = keys ∩ normalized df.
Proof.
  apply set_eq. intros k.
  rewrite elem_of_intersection, !elem_of_normalized. unfold isin_rows.
  split.
  - intros (c & Hc & <-). apply list_elem_of_filter in Hc as [Hk Hc].
    split; [done | by exists c].
  - intros (Hk & c & Hc & <-). exists c. split; [|done].
    by apply list_elem_of_filter.
Qed.

Lemma added_keys_spec new_df old_df :
  added_keys (compare_csvs new_df old_df) =
  normalized new_df ∖ normalized old_df.
Proof.
  unfold added_keys. rewrite rows_with_Added, normalized_isin_rows.
  apply set_eq. intros k.
  rewrite elem_of_intersection, elem_of_difference. tauto.
Qed.

Lemma removed_keys_spec new_df old_df :
  removed_keys (compare_csvs new_df old_df) =
  normalized old_df ∖ normalized new_df.
Proof.
  unfold removed_keys. rewrite rows_with_Removed, normalized_isin_rows.
  apply set_eq. intros k.
  rewrite elem_of_intersection, elem_of_difference. tauto.
Qed.

(** C1. For all frames A (today) and B (yesterday), the identity keys of the
    Added rows and of the Removed rows of [compare_csvs A B] are disjoint,
    and the normalised form of A is the normalised form of B, united with
    the added keys, minus the removed keys. *)
Theorem compare_csvs_set_identity (A B : frame) :
  added_keys (compare_csvs A B) ## removed_keys (compare_csvs A B) /\
  normalized A =
    (normalized B ∪ added_keys (compare_csvs A B))
      ∖ removed_keys (compare_csvs A B).
Proof.
  rewrite added_keys_spec, removed_keys_spec. split.
  - apply elem_of_disjoint. intros k.
    rewrite !elem_of_difference. tauto.
  - apply set_eq. intros k.
    rewrite elem_of_difference, elem_of_union, !elem_of_difference.
    destruct (decide (k ∈ normalized A)), (decide (k ∈ normalized B)); tauto.
Qed.

Lemma with_key_isin_rows k keys df :
  k ∈ keys -> with_key k (isin_rows keys df) = with_key k df.
Proof.
  intros Hk. unfold with_key, isin_rows.
  rewrite list_filter_filter. apply list_filter_iff.
  intros c. split; [tauto|]. intros <-. tauto.
Qed.

(** C5, as the code has it. For every key that the diff reports with a
    status, the rows shown with that status and that key are all the
    original names of the source frame (today's for Added, yesterday's for
    Removed) that normalise to the key, in the frame's row order: nothing is
    selected, every original is listed. *)
Theorem compare_csvs_lists_every_original (st : status) (k : cell)
    (new_df old_df : frame) :
  k ∈ keys_with st (compare_csvs new_df old_df) ->
  with_key k (rows_with st (compare_csvs new_df old_df)) =
  with_key k (source_frame st new_df old_df).
Proof.
  unfold keys_with. destruct st; simpl.
  - rewrite rows_with_Added, normalized_isin_rows. intros Hk.
    apply with_key_isin_rows. by apply elem_of_intersection in Hk as [Hk _].
  - rewrite rows_with_Removed, normalized_isin_rows. intros Hk.
    apply with_key_isin_rows. by apply elem_of_intersection in Hk as [Hk _].
Qed.

Lemma compare_csvs_lists_every_original_witness :
  Some "alpha" ∈ keys_with Added
                   (compare_csvs [Some "Alpha"; Some "alpha "] []) /\
  with_key (Some "alpha")
    (rows_with Added (compare_csvs [Some "Alpha"; Some "alpha "] [])) =
  [Some "Alpha"; Some "alpha "].
Proof.
  assert (H : Some "alpha" ∈ keys_with Added
                (compare_csvs [Some "Alpha"; Some "alpha "] [])).
  { refine (bool_decide_unpack _ _). vm_compute. exact I. }
  split; [exact H|].
  rewrite (compare_csvs_lists_every_original Added (Some "alpha")
             [Some "Alpha"; Some "alpha "] [] H).
  reflexivity.
Defined.

(** C5, as the spec words it: among the rows of one status no two share
    their normalised key. It fails when today's names hold two spellings of
    one new project. *)
Lemma one_representative_per_key_fails :
  ~ NoDup (normalize <$>
             rows_with Added (compare_csvs [Some "Alpha"; Some "alpha "] [])).
Proof.
  intros H.
  assert (E : normalize <$>
                rows_with Added (compare_csvs [Some "Alpha"; Some "alpha "] [])
              = [Some "alpha"; Some "alpha"]) by (vm_compute; reflexivity).
  rewrite E in H. apply NoDup_cons in H as [H _]. apply H. left.
Qed.

End Diff.

(** ** The snapshot store *)

Section Store.

Implicit Types (w : world) (df : frame) (c : cell) (path date : string).

Lemma load_csv_absent path w :
  fs w !! path = None -> load_csv path w = (Ok [], w).
Proof.
  intros H. unfold load_csv, io_bind, path_exists. rewrite H.
  rewrite bool_decide_eq_false_2; [done|]. by intros [f Hf].
Qed.

Lemma load_csv_present path w f :
  fs w !! path = Some f ->
  load_csv path w =
  if String.eqb (header f) "project_names"
  then (Ok (dropna (parse_field <$>
                    List.filter (fun l => negb (blank_line l)) (fields f))), w)
  else (Raise ValueError, w).
Proof.
  intros H. unfold load_csv, io_bind, path_exists.
  rewrite bool_decide_eq_true_2 by (rewrite H; eauto).
  unfold read_csv. rewrite H.
  destruct (String.eqb (header f) "project_names"); reflexivity.
Qed.

(** Loading reads only. *)
Lemma load_csv_world path w : snd (load_csv path w) = w.
Proof.
  destruct (fs w !! path) as [f|] eqn:E.
  - rewrite (load_csv_present _ _ _ E). by destruct (String.eqb _ _).
  - by rewrite load_csv_absent.
Qed.

Lemma disk_ok_inv w :
  disk_ok w = true -> dir_ok w = true /\ csv_write w = NoFault.
Proof.
  unfold disk_ok. destruct (dir_ok w); [|done].
  by destruct (csv_write w).
Qed.

Lemma save_snapshot_ok cfg df w :
  disk_ok w = true ->
  save_snapshot cfg df w =
  (Ok (sort_values df),
   set_fs (<[today_file cfg := to_csv_content (sort_values df)]> (fs w)) w).
Proof.
  intros H. apply disk_ok_inv in H as [Hdir Hcsv].
  unfold save_snapshot, io_bind, mkdir, to_csv.
  rewrite Hdir. cbv beta iota. rewrite Hcsv. reflexivity.
Qed.

(** The save step by cases: a directory that cannot be made, a file that
    cannot be opened, a write that breaks off, a write that goes through. *)
Lemma save_snapshot_cases cfg df w :
  save_snapshot cfg df w =
  if dir_ok w
  then match csv_write w with
       | NoFault =>
           (Ok (sort_values df),
            set_fs (<[today_file cfg := to_csv_content (sort_values df)]>
                      (fs w)) w)
       | OpenFails => (Raise OSError, w)
       | WriteFails left_behind =>
           (Raise OSError, set_fs (<[today_file cfg := left_behind]> (fs w)) w)
       end
  else (Raise OSError, w).
Proof.
  unfold save_snapshot, io_bind, mkdir, to_csv.
  destruct (dir_ok w); [|done]. cbv beta iota. by destruct (csv_write w).
Qed.

Lemma save_snapshot_fail cfg df w :
  disk_ok w = false -> fst (save_snapshot cfg df w) = Raise OSError.
Proof.
  rewrite save_snapshot_cases. unfold disk_ok.
  destruct (dir_ok w); [|done]. by destruct (csv_write w).
Qed.

Lemma save_snapshot_fs cfg df w :
  fs (snd (save_snapshot cfg df w)) = after_save cfg df w (fs w).
Proof.
  rewrite save_snapshot_cases. unfold after_save.
  destruct (dir_ok w); [|done]. by destruct (csv_write w).
Qed.

(** Apart from the files, the save step leaves the world as it is. *)
Lemma save_snapshot_frame cfg df w :
  dir_ok (snd (save_snapshot cfg df w)) = dir_ok w /\
  csv_write (snd (save_snapshot cfg df w)) = csv_write w /\
  db (snd (save_snapshot cfg df w)) = db w /\
  smtp_up (snd (save_snapshot cfg df w)) = smtp_up w /\
  sendmail_calls (snd (save_snapshot cfg df w)) = sendmail_calls w /\
  delivered (snd (save_snapshot cfg df w)) = delivered w.
Proof.
  rewrite save_snapshot_cases.
  destruct (dir_ok w) eqn:Hd; [|by cbn [snd]].
  destruct (csv_write w) eqn:Hc; by cbn.
Qed.

Lemma after_save_other cfg df w m path :
  path <> today_file cfg -> after_save cfg df w m !! path = m !! path.
Proof.
  intros H. unfold after_save. destruct (dir_ok w); [|done].
  destruct (csv_write w); [|done|]; by rewrite lookup_insert_ne.
Qed.

Lemma after_save_idem cfg df w m :
  after_save cfg df w (after_save cfg df w m) = after_save cfg df w m.
Proof.
  unfold after_save. destruct (dir_ok w); [|done].
  destruct (csv_write w); [|done|]; apply insert_insert_eq.
Qed.

Lemma elem_of_dropna c df :
  c ∈ dropna df <-> c ∈ df /\ is_Some c.
Proof.
  unfold dropna. rewrite !list_elem_of_In, List.filter_In.
  destruct c as [s|]; split; intros [H1 H2]; (split; [exact H1|]).
  - by exists s.
  - reflexivity.
  - discriminate.
  - by destruct H2.
Qed.

(** C3. For every date whose snapshot file does not exist, [load_csv]
    returns the empty frame; it does not raise and leaves the world as it
    is (the file is not created). *)
Theorem load_csv_missing_file (date : string) (w : world) :
  fs w !! snapshot_path date = None ->
  load_csv (snapshot_path date) w = (Ok [], w).
Proof. apply load_csv_absent. Qed.

Lemma insert_sorted_Permutation c df : insert_sorted c df ≡ₚ c :: df.
Proof.
  induction df as [|d df IH]; simpl; [done|].
  destruct (cell_leb c d); [done|]. rewrite IH. apply Permutation_swap.
Qed.

Lemma sort_values_Permutation df : sort_values df ≡ₚ df.
Proof.
  induction df as [|c df IH]; simpl; [done|].
  fold (sort_values df). by rewrite insert_sorted_Permutation, IH.
Qed.

Lemma write_field_not_blank s :
  forallb blank_char (chars s) = false ->
  blank_line (write_field (Some s)) = false.
Proof.
  intros H. unfold blank_line, write_field. cbn [text quoted].
  rewrite H. apply andb_false_r.
Qed.

Lemma parse_write_field s :
  is_na s = false -> parse_field (write_field (Some s)) = Some s.
Proof.
  intros H. unfold parse_field, write_field. cbn [text]. by rewrite H.
Qed.

Lemma read_back_storable df :
  forallb storable df = true ->
  dropna (parse_field <$>
          List.filter (fun l => negb (blank_line l)) (write_field <$> df)) = df.
Proof.
  induction df as [|c df IH]; [done|].
  cbn [forallb]. rewrite andb_true_iff. intros [Hc Hdf].
  destruct c as [s|]; [|done]. simpl in Hc.
  apply andb_true_iff in Hc as [Hna Hblank].
  apply negb_true_iff in Hna, Hblank.
  rewrite fmap_cons. cbn [List.filter].
  rewrite (write_field_not_blank s Hblank). cbn [negb].
  rewrite fmap_cons, (parse_write_field s Hna).
  unfold dropna. cbn [List.filter]. f_equal. by apply IH.
Qed.

Lemma forallb_Permutation {A} (f : A -> bool) (l l' : list A) :
  l ≡ₚ l' -> forallb f l = forallb f l'.
Proof.
  induction 1; simpl; try congruence.
  by rewrite !andb_assoc, (andb_comm (f y)).
Qed.

Lemma load_csv_missing_file_witness :
  fs (first_run []) !! snapshot_path "2025-03-04" = None /\
  load_csv (snapshot_path "2025-03-04") (first_run []) =
  (Ok [], first_run []).
Proof.
  split; [reflexivity|].
  apply (load_csv_missing_file "2025-03-04" (first_run [])). reflexivity.
Defined.

(** C2, as the spec words it, fails: a project called NA is archived as the
    line NA, which [read_csv] takes for a missing value and [dropna] then
    removes. *)
Lemma snapshot_roundtrip_loses_NA :
  fst (load_csv (today_file sample_config)
         (snd (save_snapshot sample_config [Some "NA"] (first_run []))))
  = Ok [] /\
  ~ ([] : frame) ≡ₚ [Some "NA"].
Proof.
  split; [vm_compute; reflexivity|].
  intros H. by apply Permutation_nil_l in H.
Qed.

(** C2, as the code has it. For every frame S, the empty one included,
    whose entries are strings that are neither one of [read_csv]'s markers
    of a missing value (the empty string among them) nor made of blanks and
    tabs only: once S is archived, loading the archive returns the rows of
    S, sorted; that is S up to row order. *)
Theorem snapshot_roundtrip (cfg : config) (S : frame) (w : world) :
  disk_ok w = true ->
  forallb storable S = true ->
  load_csv (today_file cfg) (snd (save_snapshot cfg S w)) =
    (Ok (sort_values S), snd (save_snapshot cfg S w)) /\
  sort_values S ≡ₚ S.
Proof.
  intros Hdisk HS. split; [|apply sort_values_Permutation].
  rewrite (save_snapshot_ok _ _ _ Hdisk). cbn [snd].
  rewrite (load_csv_present _ _ (to_csv_content (sort_values S))).
  - cbn [header to_csv_content fields]. cbn [String.eqb].
    change ("project_names" =? "project_names")%string with true.
    cbn iota. rewrite read_back_storable; [done|].
    by rewrite (forallb_Permutation _ _ _ (sort_values_Permutation S)).
  - unfold set_fs. cbn [fs]. apply lookup_insert_eq.
Qed.

Lemma snapshot_roundtrip_witness :
  load_csv (today_file sample_config)
    (snd (save_snapshot sample_config [Some "beta"; Some "Alpha"]
            (first_run []))) =
    (Ok [Some "Alpha"; Some "beta"],
     snd (save_snapshot sample_config [Some "beta"; Some "Alpha"]
            (first_run []))) /\
  sort_values [Some "beta"; Some "Alpha"] ≡ₚ [Some "beta"; Some "Alpha"].
Proof.
  apply (snapshot_roundtrip sample_config [Some "beta"; Some "Alpha"]
           (first_run [])); reflexivity.
Defined.

(** C4, as the spec words it, fails: a quoted blank is neither a blank line
    nor a missing value, so it is returned although trimming empties it. *)
Lemma load_csv_keeps_quoted_blank :
  fst (load_csv (yesterday_file sample_config) edited_archive)
  = Ok [Some "Alpha"; Some " "] /\
  existsb blank_entry [Some "Alpha"; Some " "] = true.
Proof. split; vm_compute; reflexivity. Qed.

Lemma read_fields_kept (l : list csv_field) :
  dropna (parse_field <$> List.filter (fun x => negb (blank_line x)) l) =
  (fun x => Some (text x)) <$> List.filter kept_line l.
Proof.
  induction l as [|x l IH]; [done|].
  cbn [List.filter]. unfold kept_line at 1.
  destruct (blank_line x); cbn [negb andb]; [exact IH|].
  rewrite fmap_cons. unfold parse_field at 1.
  destruct (is_na (text x)); cbn [negb]; unfold dropna; cbn [List.filter].
  - exact IH.
  - rewrite fmap_cons. f_equal. exact IH.
Qed.

(** C4, as the code has it. Whatever the snapshot file, [load_csv] returns,
    in the order of the file and untrimmed, the text of exactly those lines
    that are neither blank lines (an unquoted line of blanks and tabs only,
    which [read_csv] skips) nor parsed as a missing value (an empty field or
    one of [read_csv]'s markers, which [dropna] removes). So every entry
    returned is a string that is no such marker, in particular neither null
    nor empty; an entry that is empty only once trimmed and is neither of the
    two, such as a quoted blank, is returned. *)
Theorem load_csv_drops_missing (path : string) (w w' : world) (df : frame) :
  load_csv path w = (Ok df, w') ->
  Forall (fun c => exists s, c = Some s /\ is_na s = false) df /\
  (forall f, fs w !! path = Some f ->
     df = (fun l => Some (text l)) <$> List.filter kept_line (fields f)).
Proof.
  intros H. destruct (fs w !! path) as [f|] eqn:E.
  - rewrite (load_csv_present _ _ _ E) in H.
    destruct (String.eqb (header f) "project_names"); [|discriminate].
    injection H as <- _. rewrite read_fields_kept. split.
    + apply Forall_forall. intros c Hc.
      apply list_elem_of_fmap in Hc as (l & -> & Hl).
      apply list_elem_of_In, List.filter_In in Hl as [_ Hl].
      unfold kept_line in Hl. apply andb_true_iff in Hl as [_ Hl].
      apply negb_true_iff in Hl. by exists (text l).
    + by intros g [= <-].
  - rewrite (load_csv_absent _ _ E) in H. injection H as <- _.
    split; [constructor|]. intros f [=].
Qed.

Lemma load_csv_drops_missing_witness :
  load_csv (yesterday_file sample_config) edited_archive =
    (Ok [Some "Alpha"; Some " "], edited_archive) /\
  Forall (fun c => exists s, c = Some s /\ is_na s = false)
         [Some "Alpha"; Some " "] /\
  (forall f, fs edited_archive !! yesterday_file sample_config = Some f ->
     [Some "Alpha"; Some " "] =
       (fun l => Some (text l)) <$> List.filter kept_line (fields f)).
Proof.
  assert (H : load_csv (yesterday_file sample_config) edited_archive =
              (Ok [Some "Alpha"; Some " "], edited_archive))
    by (vm_compute; reflexivity).
  split; [exact H|].
  exact (load_csv_drops_missing _ _ _ _ H).
Defined.

End Store.

(** ** The workflow *)

Section Workflow.

Variable to_string : list diff_row -> string.

Implicit Types (w : world) (cfg : config) (rows old : frame).

Lemma fetch_project_names_spec w : fetch_project_names w = (Ok (db w), w).
Proof.
  unfold fetch_project_names, try_except, io_bind, db_query.
  by destruct (db w).
Qed.

Lemma send_email_down cfg n d w :
  smtp_up w = false -> send_email to_string cfg n d w = (Ok tt, w).
Proof.
  intros H. unfold send_email, try_except, io_bind, smtp_login.
  by rewrite H.
Qed.

Lemma send_email_no_recipient cfg n d w :
  smtp_up w = true -> EMAIL_RECEIVER cfg = [] ->
  send_email to_string cfg n d w =
  (Ok tt, log_sendmail (notification to_string cfg n d) w).
Proof.
  intros H Hto. unfold send_email, try_except, io_bind, smtp_login, sendmail.
  rewrite H. cbn [to_addrs]. unfold notification. by rewrite Hto.
Qed.

Lemma send_email_recipients cfg n d w :
  smtp_up w = true -> EMAIL_RECEIVER cfg <> [] ->
  send_email to_string cfg n d w =
  (Ok tt, deliver (notification to_string cfg n d)
            (log_sendmail (notification to_string cfg n d) w)).
Proof.
  intros H Hto. unfold send_email, try_except, io_bind, smtp_login, sendmail.
  rewrite H. cbn [to_addrs]. unfold notification.
  by destruct (EMAIL_RECEIVER cfg).
Qed.

(** With the servers up, one [sendmail] is issued, whoever the recipients. *)
Lemma send_email_calls cfg n d w :
  smtp_up w = true ->
  sendmail_calls (snd (send_email to_string cfg n d w)) =
  (sendmail_calls w ++ [notification to_string cfg n d])%list.
Proof.
  intros H. destruct (EMAIL_RECEIVER cfg) eqn:E.
  - by rewrite send_email_no_recipient.
  - rewrite send_email_recipients; [done|done|]. by rewrite E.
Qed.

Lemma main_fetch_failed cfg w :
  db w = None -> snd (main to_string cfg w) = w.
Proof.
  intros H. unfold main, io_bind. rewrite fetch_project_names_spec, H.
  pose proof (load_csv_world (yesterday_file cfg) w) as Hw.
  by destruct (load_csv (yesterday_file cfg) w) as [[old|e] w'].
Qed.

Lemma main_fetched cfg w rows old :
  db w = Some rows ->
  fst (load_csv (yesterday_file cfg) w) = Ok old ->
  main to_string cfg w =
  match save_snapshot cfg rows w with
  | (Ok new_data, w') =>
      send_email to_string cfg (length new_data) (compare_csvs rows old) w'
  | (Raise e, w') => (Raise e, w')
  end.
Proof.
  intros H Hold. unfold main, io_bind. rewrite fetch_project_names_spec, H.
  pose proof (load_csv_world (yesterday_file cfg) w) as Hw.
  destruct (load_csv (yesterday_file cfg) w) as [r w']. simpl in *.
  by subst.
Qed.

Lemma length_sort_values rows : length (sort_values rows) = length rows.
Proof. apply Permutation_length, sort_values_Permutation. Qed.

(** C6. Whenever the database fetch fails, the run persists nothing and
    notifies nobody: the files are as before and no [sendmail] is issued. *)
Theorem fetch_failure_aborts cfg w :
  db w = None ->
  fs (snd (main to_string cfg w)) = fs w /\
  sendmail_calls (snd (main to_string cfg w)) = sendmail_calls w /\
  delivered (snd (main to_string cfg w)) = delivered w.
Proof. intros H. by rewrite (main_fetch_failed cfg w H). Qed.

(** C7, as the code has it. Whenever the save step fails after a successful
    fetch and diff, be it in making the directory, in opening today's file or
    while writing it, its [OSError] is not caught: it ends the run and no
    notification is attempted. *)
Theorem save_failure_ends_run cfg w rows old :
  db w = Some rows ->
  fst (load_csv (yesterday_file cfg) w) = Ok old ->
  disk_ok w = false ->
  fst (main to_string cfg w) = Raise OSError /\
  sendmail_calls (snd (main to_string cfg w)) = sendmail_calls w /\
  delivered (snd (main to_string cfg w)) = delivered w.
Proof.
  intros Hdb Hold Hdisk. rewrite (main_fetched cfg w rows old Hdb Hold).
  pose proof (save_snapshot_fail cfg rows w Hdisk) as Hf.
  destruct (save_snapshot_frame cfg rows w) as (_ & _ & _ & _ & Hc & Hdl).
  destruct (save_snapshot cfg rows w) as [[sorted|e] w1]; [done|].
  cbn [fst snd] in *. by injection Hf as ->.
Qed.

(** C8, as the code has it. When the resolved recipient list is empty, the
    run is not stopped: with the database, the disk and the mail server
    available it archives today's names and then issues [sendmail] with no
    recipient; smtplib refuses, the refusal is caught, nothing is delivered
    and the run ends normally. *)
Theorem empty_recipients_not_checked cfg w rows old :
  EMAIL_RECEIVER cfg = [] ->
  db w = Some rows ->
  fst (load_csv (yesterday_file cfg) w) = Ok old ->
  disk_ok w = true ->
  smtp_up w = true ->
  main to_string cfg w =
    (Ok tt,
     log_sendmail
       (notification to_string cfg (length rows) (compare_csvs rows old))
       (set_fs (<[today_file cfg := to_csv_content (sort_values rows)]> (fs w))
               w)) /\
  to_addrs (notification to_string cfg (length rows) (compare_csvs rows old)) = [].
Proof.
  intros Hto Hdb Hold Hdisk Hsmtp. split; [|exact Hto].
  rewrite (main_fetched cfg w rows old Hdb Hold).
  rewrite (save_snapshot_ok cfg rows w Hdisk), length_sort_values.
  by apply send_email_no_recipient.
Qed.

(** C9. Today's fetch returns Gamma, alpha, Beta and yesterday's snapshot
    holds Alpha, Beta: the snapshot written is Beta, Gamma, alpha (ascending,
    casing kept), the diff is the single row Gamma/Added with nothing
    removed, and the body of the mail states the total 3 and renders that
    one row. *)
Theorem end_to_end_scenario cfg w :
  db w = Some [Some "Gamma"; Some "alpha"; Some "Beta"] ->
  fs w !! yesterday_file cfg =
    Some (to_csv_content [Some "Alpha"; Some "Beta"]) ->
  disk_ok w = true ->
  smtp_up w = true ->
  fs (snd (main to_string cfg w)) !! today_file cfg =
    Some (CsvFile "project_names"
            [Field false "Beta"; Field false "Gamma"; Field false "alpha"]) /\
  compare_csvs [Some "Gamma"; Some "alpha"; Some "Beta"]
               [Some "Alpha"; Some "Beta"] = [(Some "Gamma", Added)] /\
  rows_with Removed
    (compare_csvs [Some "Gamma"; Some "alpha"; Some "Beta"]
                  [Some "Alpha"; Some "Beta"]) = [] /\
  exists c,
    last (sendmail_calls (snd (main to_string cfg w))) = Some c /\
    msg_body (payload c) =
      "Total FP projects today: 3" ++ nl ++ nl ++
      "Changes in FP project names:" ++ nl ++
      to_string [(Some "Gamma", Added)].
Proof.
  intros Hdb Hy Hdisk Hsmtp.
  assert (Hold : load_csv (yesterday_file cfg) w =
                 (Ok [Some "Alpha"; Some "Beta"], w)).
  { rewrite (load_csv_present _ _ _ Hy). reflexivity. }
  assert (Hdiff : compare_csvs [Some "Gamma"; Some "alpha"; Some "Beta"]
                    [Some "Alpha"; Some "Beta"] = [(Some "Gamma", Added)])
    by (vm_compute; reflexivity).
  rewrite (main_fetched cfg w _ [Some "Alpha"; Some "Beta"] Hdb)
    by (by rewrite Hold).
  rewrite (save_snapshot_ok cfg _ w Hdisk), Hdiff.
  set (w1 := set_fs _ w).
  assert (Hup : smtp_up w1 = true) by exact Hsmtp.
  repeat split.
  - destruct (EMAIL_RECEIVER cfg) eqn:E.
    + rewrite send_email_no_recipient by done. cbn. apply lookup_insert_eq.
    + rewrite send_email_recipients by (by rewrite ?E). cbn.
      apply lookup_insert_eq.
  - eexists. split.
    + rewrite (send_email_calls cfg _ _ w1 Hup). apply last_snoc.
    + reflexivity.
Qed.

Lemma append_assoc (a b c : string) : (a ++ b) ++ c = a ++ b ++ c.
Proof.
  induction a as [|x a IH]; [reflexivity|].
  change (String x ((a ++ b) ++ c) = String x (a ++ b ++ c)).
  f_equal. exact IH.
Qed.

Lemma email_body_total n d :
  exists rest,
    email_body to_string n d =
    "Total FP projects today: " ++ Str.of_nat n ++ nl ++ nl ++ rest.
Proof.
  unfold email_body. cbv zeta. destruct d as [|r d].
  - eexists. rewrite !append_assoc. reflexivity.
  - eexists. rewrite !append_assoc. reflexivity.
Qed.

(** C10. The total stated in the mail is the number of distinct raw values
    the query returned, counted before any trimming or lower-casing: with
    rows free of duplicates, as SELECT DISTINCT returns them, the body opens
    with the size of the set of the raw rows. *)
Theorem total_counts_raw_rows cfg w rows old :
  db w = Some rows ->
  NoDup rows ->
  fst (load_csv (yesterday_file cfg) w) = Ok old ->
  disk_ok w = true ->
  smtp_up w = true ->
  exists c rest,
    last (sendmail_calls (snd (main to_string cfg w))) = Some c /\
    msg_body (payload c) =
      "Total FP projects today: " ++
      Str.of_nat (size (list_to_set rows : gset cell)) ++ nl ++ nl ++ rest.
Proof.
  intros Hdb Hnd Hold Hdisk Hsmtp.
  rewrite (main_fetched cfg w rows old Hdb Hold).
  rewrite (save_snapshot_ok cfg rows w Hdisk), length_sort_values.
  set (w1 := set_fs _ w).
  assert (Hup : smtp_up w1 = true) by exact Hsmtp.
  rewrite (send_email_calls cfg _ _ w1 Hup), last_snoc.
  rewrite (size_list_to_set rows Hnd).
  destruct (email_body_total (length rows) (compare_csvs rows old))
    as [rest Hrest].
  exists (notification to_string cfg (length rows) (compare_csvs rows old)), rest.
  split; [done|]. exact Hrest.
Qed.

End Workflow.

Lemma fetch_failure_aborts_witness :
  db database_down = None /\
  fs (snd (main plain_table sample_config database_down)) = fs database_down /\
  sendmail_calls (snd (main plain_table sample_config database_down)) = [] /\
  delivered (snd (main plain_table sample_config database_down)) = [].
Proof.
  split; [reflexivity|].
  apply (fetch_failure_aborts plain_table sample_config database_down).
  reflexivity.
Defined.

(** C7, as the spec words it, fails: with the disk out of order the run
    stops at the save step and [sendmail] is never called. *)
Lemma save_failure_sends_nothing :
  fst (main plain_table sample_config (disk_failure [Some "Alpha"]))
    = Raise OSError /\
  sendmail_calls
    (snd (main plain_table sample_config (disk_failure [Some "Alpha"]))) = [].
Proof. split; vm_compute; reflexivity. Qed.

Lemma save_failure_ends_run_witness :
  fst (main plain_table sample_config (disk_full [Some "Alpha"]))
    = Raise OSError /\
  sendmail_calls
    (snd (main plain_table sample_config (disk_full [Some "Alpha"]))) = [] /\
  delivered
    (snd (main plain_table sample_config (disk_full [Some "Alpha"]))) = [].
Proof.
  apply (save_failure_ends_run plain_table sample_config
           (disk_full [Some "Alpha"]) [Some "Alpha"] []); reflexivity.
Defined.

(** C8, as the spec words it, fails: with no recipient configured the run
    still writes today's snapshot and still calls [sendmail], with an empty
    address list. *)
Lemma empty_recipients_still_run :
  EMAIL_RECEIVER unaddressed_config = [] /\
  fst (main plain_table unaddressed_config (first_run [Some "Alpha"]))
    = Ok tt /\
  fs (snd (main plain_table unaddressed_config (first_run [Some "Alpha"])))
    !! today_file unaddressed_config
    = Some (CsvFile "project_names" [Field false "Alpha"]) /\
  to_addrs <$>
    sendmail_calls
      (snd (main plain_table unaddressed_config (first_run [Some "Alpha"])))
    = [[]].
Proof. repeat split; vm_compute; reflexivity. Qed.

Lemma empty_recipients_not_checked_witness :
  main plain_table unaddressed_config (first_run [Some "Alpha"]) =
    (Ok tt,
     log_sendmail
       (notification plain_table unaddressed_config 1
          [(Some "Alpha", Added)])
       (set_fs {[ today_file unaddressed_config :=
                    to_csv_content [Some "Alpha"] ]}
               (first_run [Some "Alpha"]))) /\
  to_addrs (notification plain_table unaddressed_config 1
              [(Some "Alpha", Added)]) = [].
Proof.
  apply (empty_recipients_not_checked plain_table unaddressed_config
           (first_run [Some "Alpha"]) [Some "Alpha"] []); reflexivity.
Defined.

Lemma end_to_end_scenario_witness :
  fs (snd (main plain_table sample_config
             (second_run [Some "Gamma"; Some "alpha"; Some "Beta"])))
    !! today_file sample_config =
    Some (CsvFile "project_names"
            [Field false "Beta"; Field false "Gamma"; Field false "alpha"]) /\
  compare_csvs [Some "Gamma"; Some "alpha"; Some "Beta"]
               [Some "Alpha"; Some "Beta"] = [(Some "Gamma", Added)] /\
  rows_with Removed
    (compare_csvs [Some "Gamma"; Some "alpha"; Some "Beta"]
                  [Some "Alpha"; Some "Beta"]) = [] /\
  exists c,
    last (sendmail_calls
            (snd (main plain_table sample_config
                    (second_run [Some "Gamma"; Some "alpha"; Some "Beta"]))))
      = Some c /\
    msg_body (payload c) =
      "Total FP projects today: 3" ++ nl ++ nl ++
      "Changes in FP project names:" ++ nl ++ "Gamma Added".
Proof.
  apply (end_to_end_scenario plain_table sample_config
           (second_run [Some "Gamma"; Some "alpha"; Some "Beta"]));
    reflexivity.
Defined.

Lemma total_counts_raw_rows_witness :
  exists c rest,
    last (sendmail_calls
            (snd (main plain_table sample_config
                    (first_run [Some "Alpha"; Some "alpha "])))) = Some c /\
    msg_body (payload c) =
      "Total FP projects today: " ++ "2" ++ nl ++ nl ++ rest.
Proof.
  apply (total_counts_raw_rows plain_table sample_config
           (first_run [Some "Alpha"; Some "alpha "])
           [Some "Alpha"; Some "alpha "] []);
    try reflexivity.
  refine (bool_decide_unpack _ _). vm_compute. exact I.
Defined.

(** The two spellings above share one identity key. *)
Example two_spellings_one_key :
  size (normalized [Some "Alpha"; Some "alpha "]) = 1.
Proof. vm_compute. reflexivity. Qed.

(** * Further properties of the code *)

(** ** Normalisation *)

Section Normalisation.

Lemma is_space_lower_char c : Str.is_space (Str.lower_char c) = Str.is_space c.
Proof. by destruct c as [[] [] [] [] [] [] [] []]. Qed.

Lemma lower_char_idem c : Str.lower_char (Str.lower_char c) = Str.lower_char c.
Proof. by destruct c as [[] [] [] [] [] [] [] []]. Qed.

Lemma lower_idem s : Str.lower (Str.lower s) = Str.lower s.
Proof.
  induction s as [|c s IH]; [done|].
  cbn [Str.lower]. by rewrite lower_char_idem, IH.
Qed.

Lemma lstrip_lower s : Str.lstrip (Str.lower s) = Str.lower (Str.lstrip s).
Proof.
  induction s as [|c s IH]; [done|].
  cbn [Str.lower Str.lstrip]. rewrite is_space_lower_char.
  by destruct (Str.is_space c).
Qed.

Lemma rstrip_lower s : Str.rstrip (Str.lower s) = Str.lower (Str.rstrip s).
Proof.
  induction s as [|c s IH]; [done|].
  cbn [Str.lower Str.rstrip]. rewrite IH, is_space_lower_char.
  destruct (Str.rstrip s) as [|d r]; cbn [Str.lower]; [|done].
  by destruct (Str.is_space c).
Qed.

Lemma strip_lower s : Str.strip (Str.lower s) = Str.lower (Str.strip s).
Proof. unfold Str.strip. by rewrite lstrip_lower, rstrip_lower. Qed.

Lemma rstrip_String c s :
  Str.rstrip (String c s) =
  match Str.rstrip s with
  | EmptyString => if Str.is_space c then EmptyString else String c EmptyString
  | r' => String c r'
  end.
Proof. reflexivity. Qed.

Lemma rstrip_idem s : Str.rstrip (Str.rstrip s) = Str.rstrip s.
Proof.
  induction s as [|c s IH]; [done|].
  rewrite rstrip_String. destruct (Str.rstrip s) as [|d r] eqn:E.
  - destruct (Str.is_space c) eqn:Hc; [done|].
    rewrite rstrip_String. cbn [Str.rstrip]. by rewrite Hc.
  - rewrite rstrip_String, IH. reflexivity.
Qed.

Lemma rstrip_cons c s :
  Str.is_space c = false -> Str.rstrip (String c s) = String c (Str.rstrip s).
Proof.
  intros Hc. cbn [Str.rstrip]. destruct (Str.rstrip s); [by rewrite Hc|done].
Qed.

Lemma lstrip_head s :
  Str.lstrip s = "" \/
  exists c r, Str.lstrip s = String c r /\ Str.is_space c = false.
Proof.
  induction s as [|c s IH]; [by left|].
  cbn [Str.lstrip]. destruct (Str.is_space c) eqn:Hc; [exact IH|].
  right. by exists c, s.
Qed.

Lemma lstrip_strip s : Str.lstrip (Str.strip s) = Str.strip s.
Proof.
  unfold Str.strip. destruct (lstrip_head s) as [->|(c & r & -> & Hc)]; [done|].
  rewrite (rstrip_cons _ _ Hc). cbn [Str.lstrip]. by rewrite Hc.
Qed.

Lemma strip_idem s : Str.strip (Str.strip s) = Str.strip s.
Proof.
  unfold Str.strip at 1. rewrite lstrip_strip.
  unfold Str.strip. apply rstrip_idem.
Qed.

Lemma normalize_idem c : normalize (normalize c) = normalize c.
Proof.
  destruct c as [s|]; [|done].
  change (Some (Str.lower (Str.strip (Str.lower (Str.strip s)))) =
          Some (Str.lower (Str.strip s))).
  by rewrite strip_lower, lower_idem, strip_idem.
Qed.

Lemma normalized_fmap_normalize (A : frame) :
  normalized (normalize <$> A) = normalized A.
Proof.
  unfold normalized. f_equal. rewrite <- list_fmap_compose.
  apply list_fmap_ext. intros _ c _. apply normalize_idem.
Qed.

End Normalisation.

(** ** More on the diff *)

Section DiffMore.

Implicit Types (A B : frame) (c k : cell) (st : status).

Lemma isin_rows_nil_iff (keys : gset cell) A :
  isin_rows keys A = [] <-> keys ## normalized A.
Proof.
  unfold isin_rows. split.
  - intros H. apply elem_of_disjoint. intros k Hk Hin.
    apply elem_of_normalized in Hin as (c & Hc & <-).
    by apply (filter_nil_not_elem_of _ _ c H).
  - intros H. apply elem_of_nil_inv. intros c Hc.
    apply list_elem_of_filter in Hc as [Hk Hc].
    apply (elem_of_disjoint (C:=gset cell)) in H. apply (H (normalize c) Hk).
    apply elem_of_normalized. by exists c.
Qed.

Lemma isin_rows_all (keys : gset cell) A :
  normalized A ⊆ keys -> isin_rows keys A = A.
Proof.
  intros H. unfold isin_rows.
  induction A as [|c A IH]; [done|].
  rewrite filter_cons_True.
  - f_equal. apply IH. intros k Hk. apply H.
    apply elem_of_normalized in Hk as (d & Hd & <-).
    apply elem_of_normalized. exists d. split; [by right|done].
  - apply H, elem_of_normalized. exists c. split; [by left|done].
Qed.

Lemma compare_csvs_unfold A B :
  compare_csvs A B =
  (assign_status Added (isin_rows (normalized A ∖ normalized B) A) ++
   assign_status Removed (isin_rows (normalized B ∖ normalized A) B))%list.
Proof. reflexivity. Qed.

Lemma difference_disjoint_iff (X Y : gset cell) : (X ∖ Y) ## X <-> X ⊆ Y.
Proof.
  rewrite elem_of_disjoint, elem_of_subseteq. split.
  - intros H k Hk. destruct (decide (k ∈ Y)) as [|Hn]; [done|].
    exfalso. apply (H k); [|done]. by apply elem_of_difference.
  - intros H k Hk _. apply elem_of_difference in Hk as [Hk Hn]. by apply Hn, H.
Qed.

Lemma compare_csvs_nil_intro A B :
  normalized A = normalized B -> compare_csvs A B = [].
Proof.
  intros H. rewrite compare_csvs_unfold, H.
  assert (E : isin_rows (normalized B ∖ normalized B) A = [] /\
              isin_rows (normalized B ∖ normalized B) B = []).
  { split; apply isin_rows_nil_iff, elem_of_disjoint; intros k Hk _;
      apply elem_of_difference in Hk as [Hk Hn]; by apply Hn. }
  destruct E as [-> ->]. reflexivity.
Qed.

(** X1. [compare_csvs] reports no row at all exactly when the two frames have
    the same set of normalised names; so differences of case, of surrounding
    white space, of row order or of multiplicity alone are never reported. *)
Theorem compare_csvs_empty_iff A B :
  compare_csvs A B = [] <-> normalized A = normalized B.
Proof.
  rewrite compare_csvs_unfold. unfold assign_status. split.
  - intros H. apply app_eq_nil in H as [Ha Hb].
    apply fmap_nil_inv in Ha, Hb.
    apply isin_rows_nil_iff, difference_disjoint_iff in Ha.
    apply isin_rows_nil_iff, difference_disjoint_iff in Hb.
    apply set_eq. intros k. split; [apply Ha|apply Hb].
  - apply compare_csvs_nil_intro.
Qed.

(** X2. When the two frames share no normalised name, every row of today's
    frame is reported as Added and every row of yesterday's as Removed, in
    their row order; with an empty frame for yesterday (first run) everything
    is Added. *)
Theorem compare_csvs_disjoint A B :
  normalized A ## normalized B ->
  compare_csvs A B = (assign_status Added A ++ assign_status Removed B)%list.
Proof.
  intros H. rewrite compare_csvs_unfold.
  apply (elem_of_disjoint (C:=gset cell)) in H.
  rewrite !isin_rows_all; [done| |].
  - intros k Hk. apply elem_of_difference. split; [done|].
    intros Hk'. by apply (H k).
  - intros k Hk. apply elem_of_difference. split; [done|].
    intros Hk'. by apply (H k).
Qed.

Lemma compare_csvs_disjoint_witness :
  compare_csvs [Some "Y"; Some "Z"] [Some "X"] =
  [(Some "Y", Added); (Some "Z", Added); (Some "X", Removed)].
Proof.
  apply (compare_csvs_disjoint [Some "Y"; Some "Z"] [Some "X"]).
  refine (bool_decide_unpack _ _). vm_compute. exact I.
Defined.

Lemma compare_csvs_nil_r A : compare_csvs A [] = assign_status Added A.
Proof.
  rewrite compare_csvs_unfold. rewrite isin_rows_all.
  - cbn. apply app_nil_r.
  - intros k Hk. apply elem_of_difference. split; [done|].
    unfold normalized. cbn. apply not_elem_of_empty.
Qed.

Lemma elem_of_compare_csvs_iff c st A B :
  (c, st) ∈ compare_csvs A B <->
  c ∈ source_frame st A B /\
  normalize c ∉ normalized (source_frame (opposite st) A B).
Proof.
  rewrite compare_csvs_unfold, elem_of_app. unfold assign_status, isin_rows.
  rewrite !list_elem_of_fmap.
  setoid_rewrite list_elem_of_filter.
  setoid_rewrite elem_of_difference.
  destruct st; cbn [source_frame opposite]; split.
  - intros [(d & [= <-] & (Hk & Hn) & Hd)|(d & [= ] & _)]. done.
  - intros [Hc Hn]. left. exists c. repeat split; [|done|done].
    apply elem_of_normalized. by exists c.
  - intros [(d & [= ] & _)|(d & [= <-] & (Hk & Hn) & Hd)]. done.
  - intros [Hc Hn]. right. exists c. repeat split; [|done|done].
    apply elem_of_normalized. by exists c.
Qed.

(** X3. A row (name, status) is in the diff exactly when the name is a row
    of the frame that status is taken from (today's for Added, yesterday's
    for Removed) and its normalised form is not a normalised name of the
    other frame. *)
Theorem elem_of_compare_csvs c st A B :
  (c, st) ∈ compare_csvs A B <->
  c ∈ source_frame st A B /\
  normalize c ∉ normalized (source_frame (opposite st) A B).
Proof. apply elem_of_compare_csvs_iff. Qed.

(** X4. Exchanging the two frames exchanges the roles: the names reported
    with one status by [compare_csvs A B] are, in the same order, those
    reported with the other status by [compare_csvs B A]. *)
Theorem compare_csvs_swap st A B :
  rows_with st (compare_csvs A B) = rows_with (opposite st) (compare_csvs B A).
Proof.
  destruct st; cbn [opposite].
  - by rewrite rows_with_Added, rows_with_Removed.
  - by rewrite rows_with_Added, rows_with_Removed.
Qed.

(** X5. The identity key is stable: normalising a normalised name changes
    nothing, and a frame compared with its own normalised copy, in either
    direction, yields no row. *)
Theorem compare_csvs_normalized_copy A :
  (forall c, normalize (normalize c) = normalize c) /\
  compare_csvs A (normalize <$> A) = [] /\
  compare_csvs (normalize <$> A) A = [].
Proof.
  split; [apply normalize_idem|].
  split; apply compare_csvs_nil_intro; by rewrite normalized_fmap_normalize.
Qed.

End DiffMore.

(** ** More on the snapshot store *)

Section StoreMore.

Implicit Types (w : world) (df : frame) (c : cell) (path : string).

Lemma ltb_asym s t : Str.ltb s t = true -> Str.ltb t s = false.
Proof.
  revert t. induction s as [|a s IH]; intros [|b t]; cbn [Str.ltb]; try done.
  destruct (nat_of_ascii a <? nat_of_ascii b)%nat eqn:E1,
           (nat_of_ascii b <? nat_of_ascii a)%nat eqn:E2; try done.
  - apply Nat.ltb_lt in E1, E2. intros _. exfalso.
    exact (Nat.lt_asymm _ _ E1 E2).
  - apply IH.
Qed.

Lemma cell_leb_total a b : cell_leb a b = false -> cell_leb b a = true.
Proof.
  destruct a as [s|], b as [t|]; cbn [cell_leb]; try done.
  unfold Str.leb. intros H. apply negb_false_iff in H.
  by rewrite (ltb_asym _ _ H).
Qed.

Lemma insert_sorted_Sorted c df :
  Sorted cell_le df -> Sorted cell_le (insert_sorted c df).
Proof.
  induction 1 as [|d df Hs IH Hd]; cbn [insert_sorted].
  - by repeat constructor.
  - destruct (cell_leb c d) eqn:E.
    + constructor; [by constructor|]. by constructor.
    + constructor; [exact IH|].
      destruct df as [|e df]; cbn [insert_sorted].
      * constructor. by apply cell_leb_total.
      * destruct (cell_leb c e); constructor.
        -- by apply cell_leb_total.
        -- by inversion Hd.
Qed.

Lemma sort_values_Sorted df : Sorted cell_le (sort_values df).
Proof.
  induction df as [|c df IH]; [constructor|].
  cbn. fold (sort_values df). by apply insert_sorted_Sorted.
Qed.

(** X6. When the disk can be written, the save step stores under today's
    path the rows it was given, rearranged in ascending order of Python's
    string comparison with missing values last; no row is lost or added. *)
Theorem save_snapshot_sorted cfg df w :
  disk_ok w = true ->
  exists sorted,
    fst (save_snapshot cfg df w) = Ok sorted /\
    fs (snd (save_snapshot cfg df w)) !! today_file cfg
      = Some (to_csv_content sorted) /\
    Sorted cell_le sorted /\
    sorted ≡ₚ df.
Proof.
  intros H. exists (sort_values df). rewrite (save_snapshot_ok cfg df w H).
  cbn [fst snd set_fs fs]. repeat split.
  - apply lookup_insert_eq.
  - apply sort_values_Sorted.
  - apply sort_values_Permutation.
Qed.

Lemma save_snapshot_sorted_witness :
  exists sorted,
    fst (save_snapshot sample_config
           [None; Some "b"; Some "a"; Some "B"] (first_run [])) = Ok sorted /\
    fs (snd (save_snapshot sample_config
               [None; Some "b"; Some "a"; Some "B"] (first_run [])))
      !! today_file sample_config = Some (to_csv_content sorted) /\
    Sorted cell_le sorted /\
    sorted ≡ₚ [None; Some "b"; Some "a"; Some "B"].
Proof.
  apply (save_snapshot_sorted sample_config
           [None; Some "b"; Some "a"; Some "B"] (first_run [])).
  reflexivity.
Defined.

(** X7. [load_csv] only reads: whatever it returns or raises, the world is
    as before. On an existing file whose header is not [project_names] it
    raises [ValueError]; so when it succeeds on an existing file, the header
    of that file is [project_names]. *)
Theorem load_csv_outcome path w :
  snd (load_csv path w) = w /\
  (forall f, fs w !! path = Some f -> header f <> "project_names" ->
     fst (load_csv path w) = Raise ValueError) /\
  (forall f df, fs w !! path = Some f -> fst (load_csv path w) = Ok df ->
     header f = "project_names").
Proof.
  split; [apply load_csv_world|]. split.
  - intros f E Hh. rewrite (load_csv_present _ _ _ E).
    apply String.eqb_neq in Hh. by rewrite Hh.
  - intros f df E. rewrite (load_csv_present _ _ _ E).
    destruct (String.eqb_spec (header f) "project_names"); [done|].
    discriminate.
Qed.

Lemma read_fields_sublist (l : list csv_field) :
  dropna (parse_field <$> List.filter (fun x => negb (blank_line x)) l)
  `sublist_of` ((fun x => Some (text x)) <$> l).
Proof.
  induction l as [|x l IH]; [constructor|].
  cbn [List.filter]. rewrite (fmap_cons _ x l).
  destruct (negb (blank_line x)); [|by apply sublist_cons].
  rewrite fmap_cons. unfold parse_field at 1.
  destruct (is_na (text x)); unfold dropna; cbn [List.filter].
  - by apply sublist_cons.
  - by apply sublist_skip.
Qed.

(** X8. Every name [load_csv] returns is the text of a field of the file,
    and the names come in the order of the file's lines: nothing is
    rewritten, trimmed or reordered on loading. *)
Theorem load_csv_sublist path w w' df f :
  fs w !! path = Some f ->
  load_csv path w = (Ok df, w') ->
  df `sublist_of` ((fun x => Some (text x)) <$> fields f).
Proof.
  intros E H. rewrite (load_csv_present _ _ _ E) in H.
  destruct (String.eqb (header f) "project_names"); [|discriminate].
  injection H as <- _. apply read_fields_sublist.
Qed.

Lemma load_csv_sublist_witness :
  [Some "Alpha"; Some " "] `sublist_of`
  ((fun x => Some (text x)) <$>
     [Field false "Alpha"; Field true ""; Field false "NA";
      Field false "  "; Field true " "]).
Proof.
  apply (load_csv_sublist (yesterday_file sample_config) edited_archive
           edited_archive [Some "Alpha"; Some " "]
           (CsvFile "project_names"
              [Field false "Alpha"; Field true ""; Field false "NA";
               Field false "  "; Field true " "]));
    vm_compute; reflexivity.
Defined.

Lemma chars_app (a b : string) : chars (a ++ b) = (chars a ++ chars b)%list.
Proof.
  induction a as [|x a IH]; [done|].
  change (x :: chars (a ++ b) = x :: (chars a ++ chars b)%list).
  by rewrite IH.
Qed.

Lemma chars_inj (a b : string) : chars a = chars b -> a = b.
Proof.
  intros H. rewrite <- (string_of_list_ascii_of_string a),
    <- (string_of_list_ascii_of_string b). unfold chars in H. by rewrite H.
Qed.

Lemma snapshot_path_inj (d1 d2 : string) :
  snapshot_path d1 = snapshot_path d2 -> d1 = d2.
Proof.
  unfold snapshot_path. intros H.
  apply (inj (String.app CSV_DIR)) in H.
  apply (inj (String.app "\project_names_")) in H.
  apply (f_equal chars) in H. rewrite !chars_app in H.
  apply app_inv_tail in H. by apply chars_inj.
Qed.

(** X9. Different dates have different snapshot paths: no two days share a
    file. *)
Theorem snapshot_paths_differ (d1 d2 : string) :
  d1 <> d2 -> snapshot_path d1 <> snapshot_path d2.
Proof. intros H E. by apply H, snapshot_path_inj. Qed.

Lemma snapshot_paths_differ_witness :
  snapshot_path "2025-03-04" <> snapshot_path "2025-03-05".
Proof.
  apply (snapshot_paths_differ "2025-03-04" "2025-03-05"). discriminate.
Defined.

Lemma load_csv_fst_ext path w w' :
  fs w !! path = fs w' !! path ->
  fst (load_csv path w) = fst (load_csv path w').
Proof.
  intros H. destruct (fs w !! path) as [f|] eqn:E.
  - rewrite (load_csv_present _ _ _ E).
    rewrite (load_csv_present path w' f) by done.
    by destruct (String.eqb (header f) "project_names").
  - rewrite (load_csv_absent _ _ E). by rewrite (load_csv_absent path w').
Qed.

End StoreMore.

(** ** More on the workflow *)

Section WorkflowMore.

Variable to_string : list diff_row -> string.

Implicit Types (w : world) (cfg : config) (rows old : frame).

Lemma send_email_result cfg n d w :
  fst (send_email to_string cfg n d w) = Ok tt.
Proof.
  destruct (smtp_up w) eqn:Hup.
  - destruct (EMAIL_RECEIVER cfg) eqn:E.
    + by rewrite send_email_no_recipient.
    + rewrite send_email_recipients; [done|done|by rewrite E].
  - by rewrite send_email_down.
Qed.

Lemma send_email_frame cfg n d w :
  fs (snd (send_email to_string cfg n d w)) = fs w /\
  db (snd (send_email to_string cfg n d w)) = db w /\
  disk_ok (snd (send_email to_string cfg n d w)) = disk_ok w /\
  smtp_up (snd (send_email to_string cfg n d w)) = smtp_up w.
Proof.
  destruct (smtp_up w) eqn:Hup.
  - destruct (EMAIL_RECEIVER cfg) eqn:E.
    + by rewrite send_email_no_recipient.
    + rewrite send_email_recipients; [done|done|by rewrite E].
  - by rewrite send_email_down.
Qed.

Lemma send_email_disk cfg n d w :
  dir_ok (snd (send_email to_string cfg n d w)) = dir_ok w /\
  csv_write (snd (send_email to_string cfg n d w)) = csv_write w.
Proof.
  destruct (smtp_up w) eqn:Hup.
  - destruct (EMAIL_RECEIVER cfg) eqn:E.
    + by rewrite send_email_no_recipient.
    + rewrite send_email_recipients; [done|done|by rewrite E].
  - by rewrite send_email_down.
Qed.

Lemma after_save_ok cfg df w m :
  disk_ok w = true ->
  after_save cfg df w m =
  <[today_file cfg := to_csv_content (sort_values df)]> m.
Proof.
  intros H. apply disk_ok_inv in H as [Hd Hc]. unfold after_save.
  by rewrite Hd, Hc.
Qed.

(** The whole workflow, by cases on what the world holds. *)
Lemma main_cases cfg w :
  main to_string cfg w =
  match fst (load_csv (yesterday_file cfg) w) with
  | Raise e => (Raise e, w)
  | Ok old =>
      match db w with
      | None => (Ok tt, w)
      | Some rows =>
          if disk_ok w
          then send_email to_string cfg (length rows) (compare_csvs rows old)
                 (set_fs (<[today_file cfg := to_csv_content (sort_values rows)]>
                            (fs w)) w)
          else (Raise OSError, snd (save_snapshot cfg rows w))
      end
  end.
Proof.
  destruct (fst (load_csv (yesterday_file cfg) w)) as [old|e] eqn:Hl.
  - destruct (db w) as [rows|] eqn:Hdb.
    + rewrite (main_fetched to_string cfg w rows old Hdb Hl).
      destruct (disk_ok w) eqn:Hd.
      * by rewrite (save_snapshot_ok cfg rows w Hd), length_sort_values.
      * pose proof (save_snapshot_fail cfg rows w Hd) as Hf.
        destruct (save_snapshot cfg rows w) as [[sorted|e] w1]; [done|].
        cbn [fst snd] in *. by injection Hf as ->.
    + unfold main, io_bind. rewrite fetch_project_names_spec, Hdb.
      pose proof (load_csv_world (yesterday_file cfg) w) as Hw.
      destruct (load_csv (yesterday_file cfg) w) as [r w']. cbn in *.
      by subst.
  - unfold main, io_bind. rewrite fetch_project_names_spec.
    pose proof (load_csv_world (yesterday_file cfg) w) as Hw.
    destruct (load_csv (yesterday_file cfg) w) as [r w']. cbn in *.
    by subst.
Qed.

Lemma main_fs cfg w :
  fs (snd (main to_string cfg w)) =
  match fst (load_csv (yesterday_file cfg) w), db w with
  | Ok _, Some rows => after_save cfg rows w (fs w)
  | _, _ => fs w
  end.
Proof.
  rewrite main_cases.
  destruct (fst (load_csv (yesterday_file cfg) w)) as [old|e]; [|done].
  destruct (db w) as [rows|]; [|done].
  destruct (disk_ok w) eqn:Hd.
  - rewrite (after_save_ok cfg rows w (fs w) Hd).
    by destruct (send_email_frame cfg (length rows) (compare_csvs rows old)
      (set_fs (<[today_file cfg := to_csv_content (sort_values rows)]> (fs w))
              w)) as (-> & _).
  - cbn [snd]. apply save_snapshot_fs.
Qed.

Lemma main_frame cfg w :
  db (snd (main to_string cfg w)) = db w /\
  dir_ok (snd (main to_string cfg w)) = dir_ok w /\
  csv_write (snd (main to_string cfg w)) = csv_write w.
Proof.
  rewrite main_cases.
  destruct (fst (load_csv (yesterday_file cfg) w)) as [old|e]; [|done].
  destruct (db w) as [rows|] eqn:Hdb; [|done].
  destruct (disk_ok w) eqn:Hd.
  - destruct (send_email_frame cfg (length rows) (compare_csvs rows old)
      (set_fs (<[today_file cfg := to_csv_content (sort_values rows)]> (fs w))
              w)) as (_ & -> & _).
    by destruct (send_email_disk cfg (length rows) (compare_csvs rows old)
      (set_fs (<[today_file cfg := to_csv_content (sort_values rows)]> (fs w))
              w)) as (-> & ->).
  - cbn [snd].
    destruct (save_snapshot_frame cfg rows w) as (-> & -> & -> & _).
    by rewrite Hdb.
Qed.

Lemma main_disk_ok cfg w :
  disk_ok (snd (main to_string cfg w)) = disk_ok w.
Proof.
  unfold disk_ok. by destruct (main_frame cfg w) as (_ & -> & ->).
Qed.

Lemma main_fs_other cfg w path :
  path <> today_file cfg ->
  fs (snd (main to_string cfg w)) !! path = fs w !! path.
Proof.
  intros H. rewrite main_fs.
  destruct (fst (load_csv (yesterday_file cfg) w)); [|done].
  destruct (db w); [|done]. by apply after_save_other.
Qed.

(** X10. [send_email] never raises and touches no file, whatever the state
    of the mail server. It issues one [sendmail] when connecting and logging
    in succeed and none otherwise, and the message is accepted only when, in
    addition, the recipient list is not empty. *)
Theorem send_email_contained cfg n d w :
  fst (send_email to_string cfg n d w) = Ok tt /\
  fs (snd (send_email to_string cfg n d w)) = fs w /\
  sendmail_calls (snd (send_email to_string cfg n d w)) =
    (if smtp_up w then sendmail_calls w ++ [notification to_string cfg n d]
     else sendmail_calls w)%list /\
  delivered (snd (send_email to_string cfg n d w)) =
    (if smtp_up w
     then match EMAIL_RECEIVER cfg with
          | [] => delivered w
          | _ :: _ => delivered w ++ [notification to_string cfg n d]
          end
     else delivered w)%list.
Proof.
  split; [apply send_email_result|]. split; [apply send_email_frame|].
  destruct (smtp_up w) eqn:Hup.
  - destruct (EMAIL_RECEIVER cfg) eqn:E.
    + by rewrite send_email_no_recipient.
    + rewrite send_email_recipients; [done|done|by rewrite E].
  - by rewrite send_email_down.
Qed.

(** X11. A run changes no file other than today's snapshot, however it
    ends. *)
Theorem main_only_writes_today cfg w path :
  path <> today_file cfg ->
  fs (snd (main to_string cfg w)) !! path = fs w !! path.
Proof. apply main_fs_other. Qed.

(** X12. When today and yesterday are different dates, a run leaves
    yesterday's snapshot exactly as it found it; in particular a missing one
    is not created by loading it. *)
Theorem main_keeps_yesterday cfg w :
  today cfg <> yesterday cfg ->
  fs (snd (main to_string cfg w)) !! yesterday_file cfg =
  fs w !! yesterday_file cfg.
Proof.
  intros H. apply main_fs_other. unfold yesterday_file, today_file.
  intros E. by apply H, eq_sym, snapshot_path_inj.
Qed.

(** X13. When yesterday's file exists but its header is not
    [project_names], the run ends with [ValueError], whether or not the fetch
    succeeded; nothing is written and nothing is sent. *)
Theorem malformed_yesterday_aborts cfg w f :
  fs w !! yesterday_file cfg = Some f ->
  header f <> "project_names" ->
  main to_string cfg w = (Raise ValueError, w).
Proof.
  intros E Hh. rewrite main_cases, (load_csv_present _ _ _ E).
  apply String.eqb_neq in Hh. by rewrite Hh.
Qed.

(** X14. When the mail server cannot be reached or refuses the login, the
    run still archives today's names and ends normally; no [sendmail] is
    issued and the failure is not passed on. *)
Theorem smtp_failure_swallowed cfg w rows old :
  db w = Some rows ->
  fst (load_csv (yesterday_file cfg) w) = Ok old ->
  disk_ok w = true ->
  smtp_up w = false ->
  main to_string cfg w =
  (Ok tt,
   set_fs (<[today_file cfg := to_csv_content (sort_values rows)]> (fs w)) w).
Proof.
  intros Hdb Hl Hd Hup. rewrite main_cases, Hl, Hdb, Hd.
  by apply send_email_down.
Qed.

(** X15. Running the job a second time changes no file: the files after two
    runs in a row are the files after the first. *)
Theorem main_rerun_same_files cfg w :
  fs (snd (main to_string cfg (snd (main to_string cfg w)))) =
  fs (snd (main to_string cfg w)).
Proof.
  set (w1 := snd (main to_string cfg w)).
  destruct (main_frame cfg w) as (Hdb & Hdir & Hcsv).
  fold w1 in Hdb, Hdir, Hcsv.
  pose proof (main_fs cfg w) as Hfs. fold w1 in Hfs.
  rewrite (main_fs cfg w1), Hdb.
  assert (Hsame : forall rows m,
            after_save cfg rows w1 m = after_save cfg rows w m).
  { intros rows m. unfold after_save. by rewrite Hdir, Hcsv. }
  destruct (fst (load_csv (yesterday_file cfg) w)) as [old|e] eqn:Hl.
  - destruct (db w) as [rows|] eqn:Hdbw.
    + destruct (fst (load_csv (yesterday_file cfg) w1)); [|done].
      rewrite Hsame, Hfs. apply after_save_idem.
    + by destruct (fst (load_csv (yesterday_file cfg) w1)).
  - assert (E : fst (load_csv (yesterday_file cfg) w1) = Raise e).
    { rewrite <- Hl. apply load_csv_fst_ext. by rewrite Hfs. }
    by rewrite E.
Qed.

(** X16. The run ends normally exactly when yesterday's file could be read
    (or is absent) and either the fetch failed or the disk could be written:
    fetch and mail failures never surface. *)
Theorem main_ends_normally_iff cfg w :
  fst (main to_string cfg w) = Ok tt <->
  (exists old, fst (load_csv (yesterday_file cfg) w) = Ok old) /\
  (db w = None \/ disk_ok w = true).
Proof.
  rewrite main_cases.
  destruct (fst (load_csv (yesterday_file cfg) w)) as [old|e].
  - destruct (db w) as [rows|].
    + destruct (disk_ok w).
      * rewrite send_email_result. split; [|done]. intros _.
        split; [by exists old|by right].
      * cbn [fst]. split; [done|]. by intros [_ [?|?]].
    + cbn [fst]. split; [|done]. intros _. split; [by exists old|by left].
  - cbn [fst]. split; [done|]. by intros [[old ?] _].
Qed.

(** X17. When today's names and yesterday's have the same normalised set,
    the mail that is sent has the body: total line, blank line, and the
    sentence that nothing changed. *)
Theorem no_change_report cfg w rows old :
  db w = Some rows ->
  fst (load_csv (yesterday_file cfg) w) = Ok old ->
  normalized rows = normalized old ->
  disk_ok w = true ->
  smtp_up w = true ->
  exists c,
    last (sendmail_calls (snd (main to_string cfg w))) = Some c /\
    msg_body (payload c) =
      ("Total FP projects today: " ++ Str.of_nat (length rows) ++ nl ++ nl)
        ++ "No changes in FP project names.".
Proof.
  intros Hdb Hl Hn Hd Hup. rewrite main_cases, Hl, Hdb, Hd.
  rewrite (compare_csvs_nil_intro rows old Hn).
  set (w1 := set_fs _ w).
  assert (Hup1 : smtp_up w1 = true) by exact Hup.
  rewrite (send_email_calls to_string cfg _ _ w1 Hup1), last_snoc.
  eexists. split; [done|]. reflexivity.
Qed.

(** X18. On a first run, with no file for yesterday, every fetched row is
    reported as Added, in the order fetched, and the total is their
    number. *)
Theorem first_run_reports_all_added cfg w rows :
  fs w !! yesterday_file cfg = None ->
  db w = Some rows ->
  disk_ok w = true ->
  smtp_up w = true ->
  last (sendmail_calls (snd (main to_string cfg w))) =
  Some (notification to_string cfg (length rows) (assign_status Added rows)).
Proof.
  intros Hy Hdb Hd Hup. rewrite main_cases, (load_csv_absent _ _ Hy).
  cbn [fst]. rewrite Hdb, Hd, compare_csvs_nil_r.
  set (w1 := set_fs _ w).
  assert (Hup1 : smtp_up w1 = true) by exact Hup.
  by rewrite (send_email_calls to_string cfg _ _ w1 Hup1), last_snoc.
Qed.

End WorkflowMore.

Lemma main_only_writes_today_witness :
  fs (snd (main plain_table sample_config (second_run [Some "Gamma"])))
    !! yesterday_file sample_config =
  Some (to_csv_content [Some "Alpha"; Some "Beta"]).
Proof.
  rewrite (main_only_writes_today plain_table sample_config
             (second_run [Some "Gamma"]) (yesterday_file sample_config)).
  - reflexivity.
  - discriminate.
Defined.

Lemma main_keeps_yesterday_witness :
  fs (snd (main plain_table sample_config (first_run [Some "A"; Some "B"])))
    !! yesterday_file sample_config = None.
Proof.
  rewrite (main_keeps_yesterday plain_table sample_config
             (first_run [Some "A"; Some "B"])).
  - reflexivity.
  - discriminate.
Defined.

Lemma malformed_yesterday_aborts_witness :
  main plain_table sample_config foreign_archive =
  (Raise ValueError, foreign_archive).
Proof.
  apply (malformed_yesterday_aborts plain_table sample_config foreign_archive
           (CsvFile "name" [Field false "Alpha"])).
  - reflexivity.
  - discriminate.
Defined.

Lemma smtp_failure_swallowed_witness :
  main plain_table sample_config (mail_down [Some "b"; Some "a"]) =
  (Ok tt,
   set_fs {[ today_file sample_config := to_csv_content [Some "a"; Some "b"] ]}
          (mail_down [Some "b"; Some "a"])).
Proof.
  apply (smtp_failure_swallowed plain_table sample_config
           (mail_down [Some "b"; Some "a"]) [Some "b"; Some "a"] []);
    reflexivity.
Defined.

Lemma no_change_report_witness :
  exists c,
    last (sendmail_calls
            (snd (main plain_table sample_config
                    (second_run [Some " beta"; Some "ALPHA"])))) = Some c /\
    msg_body (payload c) =
      ("Total FP projects today: " ++ "2" ++ nl ++ nl)
        ++ "No changes in FP project names.".
Proof.
  apply (no_change_report plain_table sample_config
           (second_run [Some " beta"; Some "ALPHA"])
           [Some " beta"; Some "ALPHA"] [Some "Alpha"; Some "Beta"]);
    reflexivity.
Defined.

Lemma first_run_reports_all_added_witness :
  last (sendmail_calls
          (snd (main plain_table sample_config
                  (first_run [Some "A"; Some "B"])))) =
  Some (notification plain_table sample_config 2
          [(Some "A", Added); (Some "B", Added)]).
Proof.
  apply (first_run_reports_all_added plain_table sample_config
           (first_run [Some "A"; Some "B"]) [Some "A"; Some "B"]);
    reflexivity.
Defined.

(** ** The recipient list *)

Section Recipients.

Implicit Types (s x : string) (l : list string) (cfg : config).

Lemma comma_free_String c s :
  comma_free (String c s) = negb (Ascii.eqb c ",") && comma_free s.
Proof. reflexivity. Qed.

Lemma split_comma_String c s :
  Str.split_comma (String c s) =
  if Ascii.eqb c "," then EmptyString :: Str.split_comma s
  else match Str.split_comma s with
       | [] => [String c EmptyString]
       | w :: ws => String c w :: ws
       end.
Proof. reflexivity. Qed.

Lemma split_comma_comma_free s :
  Forall (fun p => comma_free p = true) (Str.split_comma s).
Proof.
  induction s as [|c s IH]; [by repeat constructor|].
  rewrite split_comma_String. destruct (Ascii.eqb c ",") eqn:Hc.
  - by constructor.
  - destruct (Str.split_comma s) as [|w ws].
    + repeat constructor. by rewrite comma_free_String, Hc.
    + inversion IH as [|? ? Hw Hws]; subst. constructor; [|done].
      by rewrite comma_free_String, Hc.
Qed.

Lemma comma_free_lstrip s :
  comma_free s = true -> comma_free (Str.lstrip s) = true.
Proof.
  induction s as [|c s IH]; [done|].
  rewrite comma_free_String. intros H.
  apply andb_true_iff in H as [Hc Hs]. cbn [Str.lstrip].
  destruct (Str.is_space c); [by apply IH|].
  by rewrite comma_free_String, Hc.
Qed.

Lemma comma_free_rstrip s :
  comma_free s = true -> comma_free (Str.rstrip s) = true.
Proof.
  induction s as [|c s IH]; [done|].
  rewrite comma_free_String. intros H.
  apply andb_true_iff in H as [Hc Hs]. rewrite rstrip_String.
  specialize (IH Hs). destruct (Str.rstrip s) as [|d r].
  - destruct (Str.is_space c); [done|]. by rewrite comma_free_String, Hc.
  - by rewrite comma_free_String, Hc.
Qed.

Lemma comma_free_strip s :
  comma_free s = true -> comma_free (Str.strip s) = true.
Proof. intros H. by apply comma_free_rstrip, comma_free_lstrip. Qed.

(** X19. Every address of the resolved recipient list is non-empty, has no
    white space around it and holds no comma, whatever EMAIL_RECEIVER is set
    to. *)
Theorem EMAIL_RECEIVER_clean cfg :
  Forall (fun e => clean_address e = true) (EMAIL_RECEIVER cfg).
Proof.
  unfold EMAIL_RECEIVER. apply Forall_forall. intros e He.
  apply list_elem_of_fmap in He as (p & -> & Hp).
  apply list_elem_of_In, List.filter_In in Hp as [Hp Hne].
  unfold clean_address. rewrite Hne, strip_idem, String.eqb_refl.
  cbn [andb]. apply comma_free_strip.
  pose proof (split_comma_comma_free (EMAIL_RECEIVER_RAW cfg)) as H.
  rewrite Forall_forall in H. by apply H, list_elem_of_In.
Qed.

Lemma split_comma_single x :
  comma_free x = true -> Str.split_comma x = [x].
Proof.
  induction x as [|c x IH]; [done|].
  rewrite comma_free_String. intros H. apply andb_true_iff in H as [Hc Hx].
  apply negb_true_iff in Hc. rewrite split_comma_String, Hc.
  by rewrite (IH Hx).
Qed.

Lemma split_comma_app x s :
  comma_free x = true ->
  Str.split_comma (x ++ String "," s) = x :: Str.split_comma s.
Proof.
  induction x as [|c x IH]; [done|].
  rewrite comma_free_String. intros H. apply andb_true_iff in H as [Hc Hx].
  apply negb_true_iff in Hc.
  change (String c x ++ String "," s) with (String c (x ++ String "," s)).
  rewrite split_comma_String, Hc. by rewrite (IH Hx).
Qed.

Lemma join_cons2 x y l :
  Str.join ", " (x :: y :: l) =
  x ++ String "," (String " " (Str.join ", " (y :: l))).
Proof. reflexivity. Qed.

Lemma split_comma_join x l :
  Forall (fun p => comma_free p = true) (x :: l) ->
  Str.split_comma (Str.join ", " (x :: l)) = x :: (String " " <$> l).
Proof.
  revert x. induction l as [|y l IH]; intros x H.
  - inversion H; subst. by apply split_comma_single.
  - inversion H as [|? ? Hx Hl]; subst.
    rewrite join_cons2, (split_comma_app _ _ Hx), split_comma_String.
    change (Ascii.eqb " " ",") with false. cbn iota.
    by rewrite (IH y Hl).
Qed.

Lemma strip_padded y : Str.strip (String " " y) = Str.strip y.
Proof. reflexivity. Qed.

Lemma clean_address_inv e :
  clean_address e = true ->
  String.eqb e "" = false /\ Str.strip e = e /\ comma_free e = true.
Proof.
  unfold clean_address. rewrite !andb_true_iff, negb_true_iff.
  intros [[H1 H2] H3]. by apply String.eqb_eq in H2.
Qed.

Lemma resolve_padded l :
  Forall (fun e => clean_address e = true) l ->
  Str.strip <$>
    List.filter (fun email => negb (String.eqb (Str.strip email) ""))
                (String " " <$> l) = l.
Proof.
  induction 1 as [|e l He Hl IH]; [done|].
  apply clean_address_inv in He as (H1 & H2 & _).
  rewrite fmap_cons. cbn [List.filter]. rewrite strip_padded, H2, H1.
  cbn [negb]. rewrite fmap_cons, strip_padded, H2. by rewrite IH.
Qed.

(** X20. Writing clean addresses (non-empty, no white space around, no
    comma) with a comma and a blank between them and resolving that string
    gives the addresses back, in order; so the [To] header the mail carries
    resolves to the very list the mail is sent to. *)
Theorem EMAIL_RECEIVER_join l cfg :
  Forall (fun e => clean_address e = true) l ->
  EMAIL_RECEIVER (with_receiver_raw (Str.join ", " l) cfg) = l.
Proof.
  intros H. unfold EMAIL_RECEIVER, with_receiver_raw.
  cbn [EMAIL_RECEIVER_RAW]. destruct H as [|e l He Hl]; [done|].
  rewrite split_comma_join.
  - cbn [List.filter]. pose proof He as He'.
    apply clean_address_inv in He' as (H1 & H2 & _). rewrite H2, H1.
    cbn [negb]. rewrite fmap_cons, H2. f_equal. by apply resolve_padded.
  - constructor; [by apply clean_address_inv in He as (_ & _ & ?)|].
    eapply Forall_impl; [exact Hl|]. intros a Ha.
    by apply clean_address_inv in Ha as (_ & _ & ?).
Qed.

Lemma EMAIL_RECEIVER_join_witness :
  EMAIL_RECEIVER
    (with_receiver_raw "lab@example.org, admin@example.org" sample_config)
  = ["lab@example.org"; "admin@example.org"].
Proof.
  apply (EMAIL_RECEIVER_join ["lab@example.org"; "admin@example.org"]
           sample_config).
  repeat constructor.
Defined.

End Recipients.

(** ** From one day to the next *)

Section NextDay.

Variable to_string : list diff_row -> string.

Implicit Types (w : world) (cfg : config) (rows old : frame).

Lemma normalized_Permutation (A B : frame) :
  A ≡ₚ B -> normalized A = normalized B.
Proof.
  intros H. apply set_eq. intros k. rewrite !elem_of_normalized.
  split; intros (c & Hc & Hk); exists c; split; try done.
  - by rewrite <- H.
  - by rewrite H.
Qed.

Lemma main_smtp_up cfg w : smtp_up (snd (main to_string cfg w)) = smtp_up w.
Proof.
  rewrite main_cases.
  destruct (fst (load_csv (yesterday_file cfg) w)) as [old|e]; [|done].
  destruct (db w) as [rows|]; [|done]. destruct (disk_ok w).
  - by destruct (send_email_frame to_string cfg (length rows)
      (compare_csvs rows old)
      (set_fs (<[today_file cfg := to_csv_content (sort_values rows)]> (fs w))
              w)) as (_ & _ & _ & ->).
  - cbn [snd]. by destruct (save_snapshot_frame cfg rows w) as (_ & _ & _ & -> & _).
Qed.

(** What the next run reads back from the archive of [rows]. *)
Lemma read_back_elem (c : cell) (l : frame) :
  c ∈ dropna (parse_field <$>
              List.filter (fun x => negb (blank_line x)) (write_field <$> l)) ->
  c ∈ l /\ exists t, c = Some t /\ is_na t = false.
Proof.
  intros H. apply elem_of_dropna in H as [H [t ->]].
  apply list_elem_of_fmap in H as (f & Hf & Hin).
  apply list_elem_of_In, List.filter_In in Hin as [Hin _].
  apply list_elem_of_In, list_elem_of_fmap in Hin as (c0 & -> & Hc0).
  unfold parse_field in Hf.
  destruct (is_na (text (write_field c0))) eqn:Hna; [done|].
  injection Hf as ->. destruct c0 as [t0|]; [|done].
  split; [done|]. by exists t0.
Qed.

(** The state after a successful first day, as the next day finds it. *)
Lemma next_day_state cfg1 cfg2 w rows old :
  yesterday cfg2 = today cfg1 ->
  db w = Some rows ->
  fst (load_csv (yesterday_file cfg1) w) = Ok old ->
  disk_ok w = true ->
  let w1 := snd (main to_string cfg1 w) in
  db w1 = Some rows /\ disk_ok w1 = true /\ smtp_up w1 = smtp_up w /\
  load_csv (yesterday_file cfg2) w1 =
    (Ok (dropna (parse_field <$>
                 List.filter (fun x => negb (blank_line x))
                   (write_field <$> sort_values rows))), w1).
Proof.
  intros Hy Hdb Hl Hd w1.
  destruct (main_frame to_string cfg1 w) as (Hdb1 & _ & _).
  pose proof (main_disk_ok to_string cfg1 w) as Hd1.
  pose proof (main_smtp_up cfg1 w) as Hup1.
  pose proof (main_fs to_string cfg1 w) as Hfs.
  rewrite Hl, Hdb, (after_save_ok cfg1 rows w (fs w) Hd) in Hfs.
  fold w1 in Hdb1, Hd1, Hup1, Hfs.
  repeat split; [congruence|congruence|done|].
  rewrite (load_csv_present _ _ (to_csv_content (sort_values rows))).
  - reflexivity.
  - unfold yesterday_file. rewrite Hy, Hfs. apply lookup_insert_eq.
Qed.

(** X21. When a day's run succeeded and the next day fetches the same rows,
    all of them names that survive the archive, the next day's mail reports
    no change. *)
Theorem same_names_next_day cfg1 cfg2 w rows old :
  yesterday cfg2 = today cfg1 ->
  db w = Some rows ->
  fst (load_csv (yesterday_file cfg1) w) = Ok old ->
  disk_ok w = true ->
  smtp_up w = true ->
  forallb storable rows = true ->
  exists c,
    last (sendmail_calls
            (snd (main to_string cfg2 (snd (main to_string cfg1 w)))))
      = Some c /\
    msg_body (payload c) =
      ("Total FP projects today: " ++ Str.of_nat (length rows) ++ nl ++ nl)
        ++ "No changes in FP project names.".
Proof.
  intros Hy Hdb Hl Hd Hup Hst.
  destruct (next_day_state cfg1 cfg2 w rows old Hy Hdb Hl Hd)
    as (Hdb1 & Hd1 & Hup1 & Hl1).
  set (w1 := snd (main to_string cfg1 w)) in *.
  rewrite (main_cases to_string cfg2 w1), Hl1. cbn [fst].
  rewrite Hdb1, Hd1, read_back_storable
    by (by rewrite (forallb_Permutation _ _ _ (sort_values_Permutation rows))).
  rewrite (compare_csvs_nil_intro rows (sort_values rows))
    by (symmetry; apply normalized_Permutation, sort_values_Permutation).
  set (w2 := set_fs _ w1).
  assert (Hup2 : smtp_up w2 = true) by (unfold w2; cbn; congruence).
  rewrite (send_email_calls to_string cfg2 _ _ w2 Hup2), last_snoc.
  eexists. split; [done|]. reflexivity.
Qed.

(** X22. A fetched name that [read_csv] takes for a missing value (NA, None,
    null, ...) never reaches the next day's comparison: when the next day
    fetches the same rows, and no other fetched row has the same normalised
    form, that name is reported as Added again. *)
Theorem na_name_added_again cfg1 cfg2 w rows old s :
  yesterday cfg2 = today cfg1 ->
  db w = Some rows ->
  fst (load_csv (yesterday_file cfg1) w) = Ok old ->
  disk_ok w = true ->
  smtp_up w = true ->
  Some s ∈ rows ->
  is_na s = true ->
  with_key (normalize (Some s)) rows = [Some s] ->
  exists d,
    (Some s, Added) ∈ d /\
    last (sendmail_calls
            (snd (main to_string cfg2 (snd (main to_string cfg1 w)))))
      = Some (notification to_string cfg2 (length rows) d).
Proof.
  intros Hy Hdb Hl Hd Hup Hin Hna Hkey.
  destruct (next_day_state cfg1 cfg2 w rows old Hy Hdb Hl Hd)
    as (Hdb1 & Hd1 & Hup1 & Hl1).
  set (w1 := snd (main to_string cfg1 w)) in *.
  rewrite (main_cases to_string cfg2 w1), Hl1. cbn [fst].
  rewrite Hdb1, Hd1.
  set (old2 := dropna _). set (w2 := set_fs _ w1).
  assert (Hup2 : smtp_up w2 = true) by (unfold w2; cbn; congruence).
  exists (compare_csvs rows old2). split.
  - apply elem_of_compare_csvs_iff. cbn [source_frame opposite].
    split; [done|]. intros Hk.
    apply elem_of_normalized in Hk as (c & Hc & Hk).
    apply read_back_elem in Hc as (Hc & t & -> & Ht).
    rewrite (sort_values_Permutation rows) in Hc.
    assert (Hw : Some t ∈ with_key (normalize (Some s)) rows).
    { unfold with_key. apply list_elem_of_filter. split; [exact Hk|exact Hc]. }
    rewrite Hkey in Hw. apply list_elem_of_singleton in Hw as [= ->].
    congruence.
  - by rewrite (send_email_calls to_string cfg2 _ _ w2 Hup2), last_snoc.
Qed.

End NextDay.

Lemma same_names_next_day_witness :
  exists c,
    last (sendmail_calls
            (snd (main plain_table
                    next_day_config
                    (snd (main plain_table sample_config
                            (first_run [Some "Beta"; Some "Alpha"]))))))
      = Some c /\
    msg_body (payload c) =
      ("Total FP projects today: " ++ "2" ++ nl ++ nl)
        ++ "No changes in FP project names.".
Proof.
  apply (same_names_next_day plain_table sample_config
           next_day_config
           (first_run [Some "Beta"; Some "Alpha"])
           [Some "Beta"; Some "Alpha"] []);
    reflexivity.
Defined.

Lemma na_name_added_again_witness :
  exists d,
    (Some "None", Added) ∈ d /\
    last (sendmail_calls
            (snd (main plain_table
                    next_day_config
                    (snd (main plain_table sample_config
                            (first_run [Some "Alpha"; Some "None"]))))))
      = Some (notification plain_table
                next_day_config 2 d).
Proof.
  apply (na_name_added_again plain_table sample_config
           next_day_config
           (first_run [Some "Alpha"; Some "None"])
           [Some "Alpha"; Some "None"] [] "None");
    try reflexivity.
  right. left.
Defined.
